(** * Shallow embedding of the pdf-chatbot backend
    (src/backend/worker.py and src/backend/api.py).

    The ingestion worker (process_pdf), the chat handler (chat_with_pdf)
    and the status stream (document_status_stream) are translated into
    Rocq.  External services (embedding model, PDF loader, language model,
    retriever) are parameters; the Qdrant vector store and the in-memory
    conversation history are explicit state. *)

From Stdlib Require Import Ascii String ZArith Lia.
From stdpp Require Import base gmap strings list.

Local Open Scope Z_scope.

(* ------------------------------------------------------------------ *)
(** ** Python exceptions and the error monad *)

(** The exceptions the handlers distinguish.  [HTTPException] is
    FastAPI's; every other exception is caught by [except Exception]. *)
Inductive exn :=
| FileNotFoundError (msg : string)
| JSONDecodeError
| KeyError (key : string)
| TypeError (msg : string)
| OverflowError (msg : string)
| ServiceError (msg : string)   (* raised by an external service *)
| HTTPException (status_code : Z) (detail : string).

Definition is_file_not_found (e : exn) : bool :=
  match e with FileNotFoundError _ => true | _ => false end.

Definition is_http_exception (e : exn) : bool :=
  match e with HTTPException _ _ => true | _ => false end.

(** [str(e)] *)
Definition exn_str (e : exn) : string :=
  match e with
  | FileNotFoundError m => m
  | JSONDecodeError => "Expecting value"
  | KeyError k => k
  | TypeError m => m
  | OverflowError m => m
  | ServiceError m => m
  | HTTPException _ d => d
  end.

(** A computation that returns a value or raises. *)
Definition result (A : Type) := (exn + A)%type.

(** State-and-exception monad: raising keeps the state reached so far,
    as Python keeps every mutation done before the raise. *)
Definition M (S A : Type) := S -> result A * S.

Definition ret {S A} (a : A) : M S A := fun s => (inr a, s).
Definition raise {S A} (e : exn) : M S A := fun s => (inl e, s).
Definition bind {S A B} (m : M S A) (k : A -> M S B) : M S B :=
  fun s => match m s with
           | (inl e, s') => (inl e, s')
           | (inr a, s') => k a s'
           end.
Definition lift {S A} (r : result A) : M S A := fun s => (r, s).
(** [try: m except e: h e] *)
Definition try_except {S A} (m : M S A) (h : exn -> M S A) : M S A :=
  fun s => match m s with
           | (inl e, s') => h e s'
           | (inr a, s') => (inr a, s')
           end.

Notation "'let!' x := m 'in' k" := (bind m (fun x => k))
  (at level 200, x name, m at level 100, k at level 200).
Notation "'do!' m 'then' k" := (bind m (fun _ => k))
  (at level 200, m at level 100, k at level 200).

(* ------------------------------------------------------------------ *)
(** ** Text: a Python [str] as a list of characters, code points below
    256 ([len] counts them) *)

Abbreviation text := (list ascii).

Definition len (t : text) : Z := Z.of_nat (length t).

Definition txt (s : string) : text := list_ascii_of_string s.

(** [str.isspace] on one character, a code point below 256: tab to
    carriage return, the separators 0x1C-0x1F, space, NEL (0x85) and
    NO-BREAK SPACE (0xA0). *)
Definition is_py_space (c : ascii) : bool :=
  let n := nat_of_ascii c in
  ((9 <=? n)%nat && (n <=? 13)%nat) || ((28 <=? n)%nat && (n <=? 32)%nat)
  || (n =? 133)%nat || (n =? 160)%nat.

Fixpoint lstrip (t : text) : text :=
  match t with
  | [] => []
  | c :: t' => if is_py_space c then lstrip t' else t
  end.

(** [str.strip()] *)
Definition py_strip (t : text) : text := rev (lstrip (rev (lstrip t))).

Fixpoint is_prefix (p t : text) : bool :=
  match p, t with
  | [], _ => true
  | _ :: _, [] => false
  | a :: p', b :: t' => if ascii_dec a b then is_prefix p' t' else false
  end.

(** [re.search(re.escape(sep), t)] for a non-empty separator. *)
Fixpoint contains (sep t : text) : bool :=
  is_prefix sep t ||
  match t with [] => false | _ :: t' => contains sep t' end.

(** [re.split(re.escape(sep), t)]: the pieces between the leftmost
    non-overlapping occurrences of a non-empty [sep].  [skip] counts the
    characters of a matched separator still to be consumed. *)
Fixpoint split_on_go (sep t : text) (skip : nat) (cur : text) : list text :=
  match skip with
  | S k => match t with
           | [] => [rev cur]
           | _ :: t' => split_on_go sep t' k cur
           end
  | O => match t with
         | [] => [rev cur]
         | c :: t' =>
             if is_prefix sep t
             then rev cur :: split_on_go sep t' (pred (length sep)) []
             else split_on_go sep t' O (c :: cur)
         end
  end.

Definition split_on (sep t : text) : list text := split_on_go sep t O [].

(* ------------------------------------------------------------------ *)
(** ** The chunker: langchain's RecursiveCharacterTextSplitter

    worker.py:54-60 builds
    [RecursiveCharacterTextSplitter(chunk_size=800, chunk_overlap=100,
    length_function=len, is_separator_regex=False)], keeping the class
    defaults [separators=["\n\n", "\n", " ", ""]], [keep_separator=True]
    and [strip_whitespace=True], and calls [split_documents].  The
    definitions below embed that class's methods ([_split_text_with_regex],
    [_join_docs], [_merge_splits], [_split_text], [split_documents]). *)

Record splitter := {
  chunk_size : Z;
  chunk_overlap : Z;
  separators : list text;
  keep_separator : bool
}.

Definition nl : ascii := ascii_of_nat 10.

Definition worker_splitter : splitter := {|
  chunk_size := 800;
  chunk_overlap := 100;
  separators := [[nl; nl]; [nl]; [" "%char]; []];
  keep_separator := true
|}.

(** [_split_text_with_regex(text, separator, keep_separator)] with
    [keep_separator=True] ("start"): every separator is glued to the
    front of the piece that follows it; empty pieces are dropped. *)
Definition split_text_with_regex (sep t : text) (keep : bool) : list text :=
  match sep with
  | [] => map (fun c => [c]) t
  | _ =>
      let pieces := split_on sep t in
      let splits :=
        if keep then
          match pieces with
          | [] => []
          | p0 :: rest => p0 :: map (fun p => sep ++ p) rest
          end
        else pieces in
      filter (fun s => bool_decide (s <> [])) splits
  end.

(** [separator.join(docs)] *)
Fixpoint join (sep : text) (docs : list text) : text :=
  match docs with
  | [] => []
  | [d] => d
  | d :: ds => d ++ sep ++ join sep ds
  end.

(** [_join_docs]: the joined and stripped text, [None] (here: no
    element) when it is empty. *)
Definition join_docs (sep : text) (docs : list text) : list text :=
  let t := py_strip (join sep docs) in
  match t with [] => [] | _ => [t] end.

Section Merge.
Variables (size overlap : Z) (sep : text).
Let sep_len := len sep.

(** The [while] loop of [_merge_splits] that drops leading splits
    until the kept ones fit the overlap.  On an empty [current_doc]
    the total is 0 and the loop condition is false, so the [[]] case
    (where Python would index an empty list) is never taken. *)
Fixpoint pop_front (cur : list text) (total l : Z) : list text * Z :=
  if (total >? overlap)
     || ((total + l + (if bool_decide (cur <> []) then sep_len else 0) >? size)
         && (total >? 0))
  then match cur with
       | [] => (cur, total)
       | x :: rest =>
           pop_front rest
             (total - (len x + (if (1 <? length cur)%nat then sep_len else 0))) l
       end
  else (cur, total).

(** [current_doc.append(d); total += _len + (...)] *)
Definition push (cur : list text) (total : Z) (d : text) : list text * Z :=
  let cur' := cur ++ [d] in
  (cur', total + len d + (if (1 <? length cur')%nat then sep_len else 0)).

(** The body of the [for d in splits] loop of [_merge_splits]. *)
Fixpoint merge_go (splits : list text) (docs cur : list text) (total : Z)
    : list text :=
  match splits with
  | [] => docs ++ join_docs sep cur
  | d :: ds =>
      let l := len d in
      if total + l + (if bool_decide (cur <> []) then sep_len else 0) >? size
      then
        match cur with
        | [] => let '(c', t') := push cur total d in merge_go ds docs c' t'
        | _ =>
            let docs' := docs ++ join_docs sep cur in
            let '(c1, t1) := pop_front cur total l in
            let '(c', t') := push c1 t1 d in
            merge_go ds docs' c' t'
        end
      else let '(c', t') := push cur total d in merge_go ds docs c' t'
  end.

Definition merge_splits (splits : list text) : list text :=
  merge_go splits [] [] 0.
End Merge.

Section SplitText.
Variable cfg : splitter.

(** One level of [_split_text] once the separator is chosen: good
    splits (shorter than [chunk_size]) are merged, a long split is
    split again with the remaining separators ([recur]) or, when none
    remain, kept whole. *)
Definition split_level (sep : text) (recur : option (text -> list text))
    (t : text) : list text :=
  let splits := split_text_with_regex sep t (keep_separator cfg) in
  let msep := if keep_separator cfg then [] else sep in
  let merge := merge_splits (chunk_size cfg) (chunk_overlap cfg) msep in
  let '(final, good) :=
    fold_left
      (fun '(final, good) s =>
         if len s <? chunk_size cfg then (final, good ++ [s])
         else
           let final := match good with [] => final | _ => final ++ merge good end in
           let final := match recur with
                        | None => final ++ [s]
                        | Some f => final ++ f s
                        end in
           (final, []))
      splits ([], []) in
  match good with [] => final | _ => final ++ merge good end.

(** [_split_text(text, separators)]: the first separator that is empty
    or occurs in the text is used; [new_separators] are the ones after
    it.  When none is found, Python uses [separators[-1]] ([last]) with
    no remaining separators. *)
Fixpoint split_text_rec (last : text) (seps : list text) (t : text)
    {struct seps} : list text :=
  match seps with
  | [] => split_level last None t
  | s :: rest =>
      match s with
      | [] => split_level [] None t
      | _ =>
          if contains s t
          then split_level s
                 (match rest with
                  | [] => None
                  | _ => Some (split_text_rec last rest)
                  end) t
          else split_text_rec last rest t
      end
  end.

Definition split_text (t : text) : list text :=
  split_text_rec (default [] (last (separators cfg))) (separators cfg) t.
End SplitText.

(** Page metadata of a loaded PDF page. *)
Record metadata := { meta_source : option string; meta_page : option Z }.

(** A langchain [Document]. *)
Record document := { page_content : text; doc_metadata : metadata }.

(** [split_documents] = [create_documents] over the pages: every page is
    split on its own, each chunk keeps its page's metadata. *)
Definition split_documents (cfg : splitter) (docs : list document)
    : list document :=
  flat_map (fun d =>
              map (fun c => {| page_content := c; doc_metadata := doc_metadata d |})
                  (split_text cfg (page_content d))) docs.

(* ------------------------------------------------------------------ *)
(** ** JSON values and job messages *)

(** A value produced by [json.loads] (numbers: integers). *)
#[warnings="-register-all"]
Inductive json :=
| JNull
| JBool (b : bool)
| JNum (n : Z)
| JStr (s : string)
| JArr (xs : list json)
| JObj (kvs : list (string * json)).

(** A queue message body: the encoding of a JSON value, or bytes that
    are not valid JSON. *)
Inductive body := BodyJson (v : json) | BodyMalformed.

(** [json.loads(body)] *)
Definition json_loads (b : body) : result json :=
  match b with BodyJson v => inr v | BodyMalformed => inl JSONDecodeError end.

(** [job_data[key]]: a JSON object becomes a dict in which the last
    occurrence of a key wins; any other value is not subscriptable by a
    string. *)
Definition getitem (v : json) (key : string) : result json :=
  match v with
  | JObj kvs =>
      match find (fun kv => bool_decide (kv.1 = key)) (rev kvs) with
      | Some kv => inr kv.2
      | None => inl (KeyError key)
      end
  | _ => inl (TypeError "indices must be integers")
  end.

(** The message the intake endpoint publishes (api.py:90-99). *)
Definition job_message (doc_id file_path : string) : body :=
  BodyJson (JObj [("doc_id", JStr doc_id); ("file_path", JStr file_path)]).

(* ------------------------------------------------------------------ *)
(** ** The Qdrant vector store *)

Inductive distance := Cosine | Euclid | Dot.

Record payload := {
  pl_page_content : text;
  pl_source : string;
  pl_page : Z
}.

(** [PointStruct]; the vector's entries are kept as numbers whose values
    play no role here, only their count. *)
Record point := {
  point_id : nat;
  point_vector : list Z;
  point_payload : payload
}.

Record collection := {
  coll_size : nat;
  coll_distance : distance;
  coll_points : gmap nat point
}.

(** The mutating requests sent to Qdrant, in order. *)
Inductive qop :=
| QRecreate (name : string) (size : nat) (dist : distance)
| QUpsert (name : string) (points : list point).

Record wstate := {
  w_qdrant : gmap string collection;
  w_log : list qop
}.

(** [str(v)] of a value [json.loads] returns. *)

Definition dq : ascii := ascii_of_nat 34.
Definition bs : ascii := ascii_of_nat 92.

(** [sep.join(xs)] on strings. *)
Fixpoint join_str (sep : string) (xs : list string) : string :=
  match xs with
  | [] => ""%string
  | [x] => x
  | x :: xs' => (x ++ sep ++ join_str sep xs')%string
  end.

(** The decimal digits of [p >= 0] in front of [acc]; [fuel] more
    digits than the first may be written. *)
Fixpoint decimal_digits (fuel : nat) (p : Z) (acc : string) : string :=
  let acc' := String (ascii_of_nat (48 + Z.to_nat (p mod 10))) acc in
  match fuel with
  | O => acc'
  | S f => if p <? 10 then acc' else decimal_digits f (p / 10) acc'
  end.

(** [str(n)] of an integer: a number [p > 0] has at most [log2 p + 1]
    decimal digits. *)
Definition int_str (n : Z) : string :=
  if n <? 0
  then String "-" (decimal_digits (Z.to_nat (Z.log2 (- n))) (- n) EmptyString)
  else decimal_digits (Z.to_nat (Z.log2 n)) n EmptyString.

Definition str_has (c : ascii) (s : string) : bool :=
  existsb (fun a => Ascii.eqb a c) (list_ascii_of_string s).

(** One digit of [Py_hexdigits]. *)
Definition hex_lower (n : nat) : ascii :=
  if (n <? 10)%nat then ascii_of_nat (48 + n) else ascii_of_nat (87 + n).

(** One character of [repr(s)] quoted by [q]: the quote and backslash
    are escaped, tab, newline and carriage return by name, and the other
    characters that are not printable (below 0x20, 0x7F to 0xA0, and
    0xAD) as [\xhh]. *)
Definition repr_char (q c : ascii) : string :=
  let n := nat_of_ascii c in
  if (n =? 92)%nat || Ascii.eqb c q then String bs (String c EmptyString)
  else if (n =? 9)%nat then String bs (String "t" EmptyString)
  else if (n =? 10)%nat then String bs (String "n" EmptyString)
  else if (n =? 13)%nat then String bs (String "r" EmptyString)
  else if (n <? 32)%nat || ((127 <=? n)%nat && (n <=? 160)%nat) || (n =? 173)%nat
  then String bs (String "x" (String (hex_lower (n / 16))
                                     (String (hex_lower (n mod 16)) EmptyString)))
  else String c EmptyString.

(** [repr(s)]: double quotes when [s] holds a single quote and no
    double quote, single quotes otherwise. *)
Definition repr_str (s : string) : string :=
  let q := if str_has "'" s && negb (str_has dq s) then dq else "'"%char in
  String q (fold_right (fun c acc => (repr_char q c ++ acc)%string)
                       (String q EmptyString) (list_ascii_of_string s)).

(** The items of the dict [json.loads] builds from an object's pairs: a
    repeated key keeps the place of its first occurrence and takes the
    value of its last. *)
Definition dict_items {A} (kvs : list (string * A)) : list (string * A) :=
  foldl (fun items kv =>
           if existsb (fun it => bool_decide (it.1 = kv.1)) items
           then map (fun it => if bool_decide (it.1 = kv.1) then kv else it) items
           else items ++ [kv]) [] kvs.

(** [repr(v)] *)
Fixpoint py_repr (v : json) : string :=
  match v with
  | JNull => "None"
  | JBool b => if b then "True" else "False"
  | JNum n => int_str n
  | JStr s => repr_str s
  | JArr xs => "[" ++ join_str ", " (map py_repr xs) ++ "]"
  | JObj kvs =>
      "{" ++ join_str ", "
             (map (fun kv => repr_str kv.1 ++ ": " ++ kv.2)
                  (dict_items (map (fun kv => (kv.1, py_repr kv.2)) kvs))) ++ "}"
  end%string.

(** [str(v)] *)
Definition py_str (v : json) : string :=
  match v with JStr s => s | _ => py_repr v end.

(** The collection name goes into the request path as [str(name)],
    which raises for no value [json.loads] returns. *)
Definition collection_key (name : json) : result string := inr (py_str name).

(** [qdrant_client.get_collection(name)]: raises when it does not exist. *)
Definition get_collection (name : json) : M wstate collection :=
  let! key := lift (collection_key name) in
  fun st => match w_qdrant st !! key with
            | Some c => (inr c, st)
            | None => (inl (ServiceError "Not found: Collection doesn't exist!"), st)
            end.

(** [qdrant_client.recreate_collection(...)]: drop the collection if
    present and create it empty. *)
Definition recreate_collection (name : json) (size : nat) (dist : distance)
    : M wstate unit :=
  let! key := lift (collection_key name) in
  fun st =>
    (inr tt,
     {| w_qdrant := <[key := {| coll_size := size; coll_distance := dist;
                                coll_points := ∅ |}]> (delete key (w_qdrant st));
        w_log := w_log st ++ [QRecreate key size dist] |}).

(** [qdrant_client.upsert(name, points)]: the collection must exist and
    every vector must have its dimensionality; a point replaces the one
    with the same id. *)
Definition upsert (name : json) (pts : list point) : M wstate unit :=
  let! key := lift (collection_key name) in
  fun st =>
    match w_qdrant st !! key with
    | None => (inl (ServiceError "Not found: Collection doesn't exist!"), st)
    | Some c =>
        if forallb (fun p => Nat.eqb (length (point_vector p)) (coll_size c)) pts
        then
          let c' := {| coll_size := coll_size c; coll_distance := coll_distance c;
                       coll_points := foldl (fun m p => <[point_id p := p]> m)
                                            (coll_points c) pts |} in
          (inr tt, {| w_qdrant := <[key := c']> (w_qdrant st);
                      w_log := w_log st ++ [QUpsert key pts] |})
        else (inl (ServiceError "Wrong input: Vector dimension error"), st)
    end.

(* ------------------------------------------------------------------ *)
(** ** The ingestion worker (worker.py) *)

Inductive delivery_outcome :=
| Ack                      (* ch.basic_ack *)
| Nack (requeue : bool).   (* ch.basic_nack(requeue=...) *)

(** The payload of the point stored for a chunk (worker.py:92-96). *)
Definition payload_of (ch : document) : payload :=
  {| pl_page_content := page_content ch;
     pl_source := default "" (meta_source (doc_metadata ch));
     pl_page := default 0 (meta_page (doc_metadata ch)) |}.

Definition mk_point (i : nat) (embedding : list Z) (ch : document) : point :=
  {| point_id := i; point_vector := embedding; point_payload := payload_of ch |}.

Section Worker.
(** The file system seen by [os.path.exists]: paths, and open file
    descriptors for integer arguments. *)
Variable file_exists : string -> bool.
Variable fd_valid : Z -> bool.
(** [PyMuPDFLoader(file_path).load()]: one document per page. *)
Variable load_pdf : json -> result (list document).
(** [embeddings.embed_query(text)] *)
Variable embed_query : text -> result (list Z).

(** [os.stat] on an integer: a file descriptor must fit a C [int]. *)
Definition fd_exists (n : Z) : result bool :=
  if n <? -2147483648 then inl (OverflowError "fd is less than minimum")
  else if 2147483647 <? n then inl (OverflowError "fd is greater than maximum")
  else inr (fd_valid n).

(** [os.path.exists(path)]: [False] for a missing path, a [TypeError]
    for an argument that is neither a path nor an integer, an
    [OverflowError] for an integer outside the range of a C [int]. *)
Definition os_path_exists (p : json) : result bool :=
  match p with
  | JStr s => inr (file_exists s)
  | JNum n => fd_exists n
  | JBool b => fd_exists (if b then 1 else 0)
  | _ => inl (TypeError "stat: path should be string, bytes, os.PathLike or integer")
  end.

(** worker.py:70-81: create the collection only when [get_collection]
    raises. *)
Definition ensure_collection (collection_name : json) (embedding_dim : nat)
    : M wstate unit :=
  try_except
    (let! _ := get_collection collection_name in ret tt)
    (fun _ => recreate_collection collection_name embedding_dim Cosine).

(** worker.py:84-103: [for i, chunk in enumerate(chunks)], one upsert
    per chunk, ids counting from [i]. *)
Fixpoint store_chunks_from (collection_name : json) (i : nat)
    (chunks : list document) : M wstate unit :=
  match chunks with
  | [] => ret tt
  | ch :: rest =>
      let! embedding := lift (embed_query (page_content ch)) in
      let! _ := upsert collection_name [mk_point i embedding ch] in
      store_chunks_from collection_name (S i) rest
  end.

Definition store_chunks (collection_name : json) (chunks : list document)
    : M wstate unit :=
  store_chunks_from collection_name 0 chunks.

(** [f"File not found: {file_path}"] *)
Definition file_not_found_msg (file_path : json) : string :=
  "File not found: " ++ py_str file_path.

(** The body of the [try] block of [process_pdf] (worker.py:31-108). *)
Definition process_pdf_try (b : body) : M wstate delivery_outcome :=
  let! job_data := lift (json_loads b) in
  let! doc_id := lift (getitem job_data "doc_id") in
  let! file_path := lift (getitem job_data "file_path") in
  let! exists_ := lift (os_path_exists file_path) in
  let! _ := (if exists_ then ret tt
             else raise (FileNotFoundError (file_not_found_msg file_path))) in
  let! documents := lift (load_pdf file_path) in
  let chunks := split_documents worker_splitter documents in
  let! sample_embedding := lift (embed_query (txt "test")) in
  let embedding_dim := length sample_embedding in
  let collection_name := doc_id in
  let! _ := ensure_collection collection_name embedding_dim in
  let! _ := store_chunks collection_name chunks in
  ret Ack.

(** [process_pdf]: a [FileNotFoundError] is rejected without requeue,
    any other exception with requeue (worker.py:110-117). *)
Definition process_pdf (b : body) : M wstate delivery_outcome :=
  try_except (process_pdf_try b)
    (fun e => if is_file_not_found e then ret (Nack false) else ret (Nack true)).

(** The broker's side: a message rejected with [requeue=True] is
    delivered again.  The outcomes of the first [n] deliveries. *)
Fixpoint deliver (n : nat) (b : body) (st : wstate)
    : list delivery_outcome * wstate :=
  match n with
  | O => ([], st)
  | S n' =>
      match process_pdf b st with
      | (inr (Nack true), st') =>
          let '(rs, st'') := deliver n' b st' in (Nack true :: rs, st'')
      | (inr r, st') => ([r], st')
      | (inl _, st') => ([], st')
      end
  end.
End Worker.

(* ------------------------------------------------------------------ *)
(** ** The chat endpoint (api.py, [chat_with_pdf]) *)

Local Open Scope string_scope.

Definition nl_s : string := String nl EmptyString.

(** One stored exchange: [{"query": ..., "response": ...}]. *)
Record turn := { t_query : string; t_response : string }.

(** [ChatRequest]; [conversation_id] is optional. *)
Record chat_request := {
  req_doc_id : string;
  req_query : string;
  req_conversation_id : option string
}.

Record chat_response := {
  answer : string;
  resp_doc_id : string;
  resp_conversation_id : string
}.

Inductive role := System | Human.
Abbreviation message := (role * string)%type.

(** The external calls the handler makes, in order. *)
Inductive api_call :=
| CallGetCollection (name : string)
| CallRetrieve (collection_name query : string) (k : nat)
| CallLLM (messages : list message).

Record astate := {
  conversation_history : gmap string (list turn);
  a_qdrant : gmap string collection;
  a_calls : list api_call
}.

Definition with_calls (st : astate) (cs : list api_call) : astate :=
  {| conversation_history := conversation_history st;
     a_qdrant := a_qdrant st;
     a_calls := a_calls st ++ cs |}.

Definition log_call (c : api_call) : M astate unit :=
  fun st => (inr tt, with_calls st [c]).

(** [qdrant_client.get_collection(name)] from the API process. *)
Definition api_get_collection (name : string) : M astate collection :=
  let! _ := log_call (CallGetCollection name) in
  fun st => match a_qdrant st !! name with
            | Some c => (inr c, st)
            | None => (inl (ServiceError "Not found: Collection doesn't exist!"), st)
            end.

Definition system_intro : string :=
  "You are an assistant for question-answering tasks. "
  ++ "Use the following pieces of retrieved context to answer "
  ++ "the question. If you don't know the answer, say that you "
  ++ "don't know. Use three sentences maximum and keep the "
  ++ "answer concise. Always refer to the context when answering.".

(** The two system prompt templates of api.py:170-190. *)
Inductive system_template := WithHistory | ContextOnly.

Definition template_for (history : list turn) : system_template :=
  match history with [] => ContextOnly | _ => WithHistory end.

(** [ChatPromptTemplate.from_messages([("system", system_prompt),
    ("human", "{input}")])] filled with its variables. *)
Definition format_prompt (tmpl : system_template) (input history context : string)
    : list message :=
  let sys :=
    match tmpl with
    | WithHistory =>
        system_intro ++ nl_s ++ nl_s ++ "Conversation History:" ++ nl_s ++ history
        ++ nl_s ++ nl_s ++ "Retrieved Context:" ++ nl_s ++ context
    | ContextOnly => system_intro ++ nl_s ++ nl_s ++ context
    end in
  [(System, sys); (Human, input)].

(** [l[-3:]] *)
Definition last3 {A} (l : list A) : list A := skipn (length l - 3) l.

Definition render_turn (t : turn) : string :=
  "Human: " ++ t_query t ++ nl_s ++ "Assistant: " ++ t_response t.

(** api.py:198 *)
Definition format_history (history : list turn) : string :=
  join_str nl_s (map render_turn (last3 history)).

Definition not_found_detail : string :=
  "Document collection not found. Processing may still be ongoing.".

Definition required_detail : string := "Document ID and query are required".

(** [create_stuff_documents_chain]'s [context]: the page contents
    joined with blank lines. *)
Definition context_of (docs : list document) : string :=
  join_str (nl_s ++ nl_s) (map (fun d => string_of_list_ascii (page_content d)) docs).

Section Chat.
(** The retriever over a collection ([similarity_search] with [k]). *)
Variable retrieve : gmap string collection -> string -> string -> nat -> result (list document).
(** The language model's [invoke] on a list of messages. *)
Variable generate : list message -> result string.

(** [rag_chain.invoke({"input": query, "history": history})]:
    retrieval of the top 5 chunks, the prompt filled with their
    [context], then the model. *)
Definition rag_chain_invoke (tmpl : system_template)
    (doc_id query history : string) : M astate string :=
  let! _ := log_call (CallRetrieve doc_id query 5) in
  let! docs := (fun st => (retrieve (a_qdrant st) doc_id query 5, st)) in
  let context := context_of docs in
  let msgs := format_prompt tmpl query history context in
  let! _ := log_call (CallLLM msgs) in
  lift (generate msgs).

(** [conversation_history[cid] = history + [turn]] *)
Definition store_turn (cid : string) (history : list turn) (t : turn) : M astate unit :=
  fun st => (inr tt, {| conversation_history := <[cid := (history ++ [t])%list]> (conversation_history st);
                        a_qdrant := a_qdrant st;
                        a_calls := a_calls st |}).

Definition read_history (cid : string) : M astate (list turn) :=
  fun st => (inr (default [] (conversation_history st !! cid)), st).

(** [request.conversation_id or str(uuid.uuid4())] *)
Definition conversation_id_of (fresh : string) (req : chat_request) : string :=
  match req_conversation_id req with
  | Some c => if bool_decide (c = "") then fresh else c
  | None => fresh
  end.

(** The [try] block of [chat_with_pdf] (api.py:124-220); [fresh] is the
    value [uuid.uuid4()] would give. *)
Definition chat_try (fresh : string) (req : chat_request) : M astate chat_response :=
  if bool_decide (req_doc_id req = "") || bool_decide (req_query req = "")
  then raise (HTTPException 400 required_detail)
  else
    let conversation_id := conversation_id_of fresh req in
    let! _ := try_except (api_get_collection (req_doc_id req))
                (fun _ => raise (HTTPException 404 not_found_detail)) in
    let! history := read_history conversation_id in
    let tmpl := template_for history in
    let formatted_history := format_history history in
    let! ans := rag_chain_invoke tmpl (req_doc_id req) (req_query req) formatted_history in
    let! _ := store_turn conversation_id history
                {| t_query := req_query req; t_response := ans |} in
    ret {| answer := ans; resp_doc_id := req_doc_id req;
           resp_conversation_id := conversation_id |}.

(** [except HTTPException: raise]; [except Exception as e:] 500. *)
Definition chat_with_pdf (fresh : string) (req : chat_request) : M astate chat_response :=
  try_except (chat_try fresh req)
    (fun e => if is_http_exception e then raise e
              else raise (HTTPException 500 ("Chat failed: " ++ exn_str e))).
End Chat.

(* ------------------------------------------------------------------ *)
(** ** The status stream (api.py, [document_status_stream]) *)

Inductive doc_status := Processing | Processed.

(** What the generator does: yield an event, sleep, or finish. *)
Inductive stream_item :=
| Yield (status : doc_status) (doc_id : string)
| SleepFor (seconds : Z)
| Close.

(** [event_generator()] over its first [fuel] iterations; [check k] says
    whether the [k]-th [get_collection(doc_id)] (with its client set-up)
    returned without raising. *)
Fixpoint event_generator (check : nat -> bool) (doc_id : string) (fuel k : nat)
    : list stream_item :=
  match fuel with
  | O => []
  | S fuel' =>
      if check k then [Yield Processed doc_id; Close]
      else Yield Processing doc_id :: SleepFor 2
           :: event_generator check doc_id fuel' (S k)
  end.

(** [m] polls that found no collection: each yields "processing" and
    sleeps 2 seconds. *)
Definition polling (doc_id : string) (m : nat) : list stream_item :=
  concat (repeat [Yield Processing doc_id; SleepFor 2] m).

Local Close Scope string_scope.

(* ------------------------------------------------------------------ *)
(** ** Start-up check (worker.py:16-24 and api.py:23-31) *)

Local Open Scope string_scope.

Definition required_vars : list string :=
  ["GOOGLE_API_KEY"; "QDRANT_HOST"; "RABBITMQ_HOST"].

(** [not os.getenv(var)]: the variable is unset or set to the empty
    string. *)
Definition env_unset (getenv : string -> option string) (var : string) : bool :=
  match getenv var with
  | None => true
  | Some v => bool_decide (v = "")
  end.

(** [[var for var in required_vars if not os.getenv(var)]] *)
Definition missing_vars (getenv : string -> option string) : list string :=
  List.filter (env_unset getenv) required_vars.

(** The module-level check: [Some msg] when the import raises
    [ValueError(msg)], [None] when it goes on. *)
Definition validate_env (getenv : string -> option string) : option string :=
  match missing_vars getenv with
  | [] => None
  | ms => Some ("Missing required environment variables: " ++ join_str ", " ms
                ++ ". Please check your .env file.")
  end.

(* ------------------------------------------------------------------ *)
(** ** The intake endpoint (api.py, [upload_pdf]) *)

(** [str.lower()] on a header value: the ASCII capitals are lowered;
    no other character lowers to one of "p", "d", "f", so the test
    below does not depend on the other characters. *)
Definition lower_char (c : ascii) : ascii :=
  let n := nat_of_ascii c in
  if (65 <=? n)%nat && (n <=? 90)%nat then ascii_of_nat (n + 32) else c.

Definition py_lower (s : string) : text := map lower_char (txt s).

(** [not file.content_type or "pdf" not in file.content_type.lower()] *)
Definition not_pdf (content_type : option string) : bool :=
  match content_type with
  | None => true
  | Some ct => bool_decide (ct = "") || negb (contains (txt "pdf") (py_lower ct))
  end.

Definition only_pdf_detail : string := "Only PDF files are allowed".

(** [f"/tmp/uploads/{doc_id}.pdf"] *)
Definition upload_file_path (doc_id : string) : string :=
  "/tmp/uploads/" ++ doc_id ++ ".pdf".

(** The API process's side effects: files under /tmp/uploads and the
    messages in the durable pdf_processing_queue. *)
Record ustate := {
  u_files : gmap string (list Byte.byte);
  u_queue : list body
}.

(** [open(file_path, "wb")] and [buffer.write(content)]: the file is
    created or truncated and holds [content]; /tmp/uploads exists
    (created at import). *)
Definition write_file (path : string) (content : list Byte.byte) : M ustate unit :=
  fun st => (inr tt, {| u_files := <[path := content]> (u_files st);
                        u_queue := u_queue st |}).

(** [channel.basic_publish(..., routing_key='pdf_processing_queue', body=...)] *)
Definition basic_publish (b : body) : M ustate unit :=
  fun st => (inr tt, {| u_files := u_files st; u_queue := u_queue st ++ [b] |}).

Section Upload.
(** [pika.BlockingConnection(...)]: raises when the broker cannot be
    reached. *)
Variable rabbitmq_connect : result unit.

(** The [try] block of [upload_pdf] (api.py:65-109); [fresh] is the
    value of [str(uuid.uuid4())]. *)
Definition upload_try (fresh : string) (content_type : option string)
    (content : list Byte.byte) : M ustate string :=
  let doc_id := fresh in
  if not_pdf content_type then raise (HTTPException 400 only_pdf_detail)
  else
    let file_path := upload_file_path doc_id in
    do! write_file file_path content then
    do! lift rabbitmq_connect then
    do! basic_publish (job_message doc_id file_path) then
    ret doc_id.

(** [except HTTPException: raise]; [except Exception as e:] 500. *)
Definition upload_pdf (fresh : string) (content_type : option string)
    (content : list Byte.byte) : M ustate string :=
  try_except (upload_try fresh content_type content)
    (fun e => if is_http_exception e then raise e
              else raise (HTTPException 500 ("Upload failed: " ++ exn_str e))).
End Upload.

Local Close Scope string_scope.

(* ------------------------------------------------------------------ *)
(** ** The text of a status event (api.py:242, 247) *)

(** A Python [str] given by its code points. *)
Abbreviation pystr := (list Z).

Definition pystr_of (s : string) : pystr :=
  map (fun a => Z.of_nat (nat_of_ascii a)) (txt s).

Definition char_of (n : Z) : ascii := ascii_of_nat (Z.to_nat n).

(** One digit of ['{0:04x}'.format(n)]. *)
Definition hex_digit (n : Z) : ascii :=
  if n <? 10 then char_of (48 + n) else char_of (87 + n).

(** ['\\u{0:04x}'.format(n)] for [n < 0x10000]. *)
Definition u_escape (n : Z) : text :=
  bs :: "u"%char ::
    map (fun k => hex_digit (Z.land (Z.shiftr n (4 * k)) 15)) [3; 2; 1; 0].

(** [json.encoder]'s [ESCAPE_ASCII] substitution for one character:
    backslash, quote and the characters outside [' '..'~'] are escaped,
    through [ESCAPE_DCT] or as [\uXXXX] (a surrogate pair above
    0xFFFF). *)
Definition json_escape_char (c : Z) : text :=
  if c =? 92 then [bs; bs]
  else if c =? 34 then [bs; dq]
  else if c =? 8 then [bs; "b"%char]
  else if c =? 12 then [bs; "f"%char]
  else if c =? 10 then [bs; "n"%char]
  else if c =? 13 then [bs; "r"%char]
  else if c =? 9 then [bs; "t"%char]
  else if (32 <=? c) && (c <=? 126) then [char_of c]
  else if c <? 65536 then u_escape c
  else
    let n := c - 65536 in
    u_escape (Z.lor 55296 (Z.land (Z.shiftr n 10) 1023))
    ++ u_escape (Z.lor 56320 (Z.land n 1023)).

(** [encode_basestring_ascii(s)] (the default [ensure_ascii=True]). *)
Definition encode_basestring_ascii (s : pystr) : text :=
  dq :: flat_map json_escape_char s ++ [dq].

Definition status_str (s : doc_status) : string :=
  match s with Processing => "processing"%string | Processed => "processed"%string end.

(** [f"data: {json.dumps({'status': status, 'doc_id': doc_id})}\n\n"],
    with [json.dumps]'s default separators. *)
Definition sse_event (status : doc_status) (doc_id : pystr) : text :=
  txt "data: {" ++ encode_basestring_ascii (pystr_of "status") ++ txt ": "
  ++ encode_basestring_ascii (pystr_of (status_str status)) ++ txt ", "
  ++ encode_basestring_ascii (pystr_of "doc_id") ++ txt ": "
  ++ encode_basestring_ascii doc_id ++ txt "}" ++ [nl; nl].

(* ------------------------------------------------------------------ *)
(** ** Auxiliary notions for the worker's effect on the store *)

(** The points map after upserting [pts] one by one. *)
Definition insert_points (m : gmap nat point) (pts : list point) : gmap nat point :=
  foldl (fun m p => <[point_id p := p]> m) m pts.

(** The points the chunk loop builds from [i] on, when every
    embedding call answers. *)
Fixpoint embed_points (embed_query : text -> result (list Z)) (i : nat)
    (chunks : list document) : option (list point) :=
  match chunks with
  | [] => Some []
  | ch :: rest =>
      match embed_query (page_content ch) with
      | inl _ => None
      | inr e => (fun pts => mk_point i e ch :: pts) <$> embed_points embed_query (S i) rest
      end
  end.

(** The store after the points [pts] were upserted one at a time into
    the existing collection [c] named [name]. *)
Definition after_upserts (st : wstate) (name : string) (c : collection)
    (pts : list point) : wstate :=
  {| w_qdrant := <[name := {| coll_size := coll_size c; coll_distance := coll_distance c;
                              coll_points := insert_points (coll_points c) pts |}]>
                 (w_qdrant st);
     w_log := w_log st ++ map (fun p => QUpsert name [p]) pts |}.

(* ------------------------------------------------------------------ *)
(** ** Auxiliary notions for the chunk-size argument *)

(** The [total] that [_merge_splits] keeps for [current_doc] when the
    separator is empty. *)
Fixpoint sum_len (cur : list text) : Z :=
  match cur with [] => 0 | x :: r => len x + sum_len r end.

(** What the deeper splitting ([recur]) must guarantee for a split at
    least [chunk_size] long. *)
Definition recur_ok (cfg : splitter) (recur : option (text -> list text)) (s : text) : Prop :=
  match recur with
  | None => False
  | Some f => forall c, In c (f s) -> len c <= chunk_size cfg
  end.

(** A printable ASCII character ([' '..'~']). *)
Definition printable (a : ascii) : Prop := (32 <= nat_of_ascii a <= 126)%nat.



(* ------------------------------------------------------------------ *)
(** ** Concrete inputs *)

(** Three 700-character paragraphs on one page. *)
Definition par (c : ascii) (n : nat) : text := repeat c n.
Definition three_paragraphs : text :=
  par "a"%char 700 ++ [nl; nl] ++ par "b"%char 700 ++ [nl; nl] ++ par "c"%char 700.
Definition page1 : document :=
  {| page_content := three_paragraphs;
     doc_metadata := {| meta_source := Some "/tmp/uploads/d.pdf"; meta_page := Some 0 |} |}.

(** Pages of the same PDF padded with NO-BREAK SPACE (0xA0) and NEL
    (0x85), which [str.strip] removes: one blank, one around "Hi". *)
Definition nbsp : ascii := ascii_of_nat 160.
Definition nel : ascii := ascii_of_nat 133.
Definition blank_page : document :=
  {| page_content := [nbsp; nel; " "%char]; doc_metadata := doc_metadata page1 |}.
Definition padded_page : document :=
  {| page_content := nbsp :: txt " Hi " ++ [nel]; doc_metadata := doc_metadata page1 |}.

(** An embedding service that always answers a 2-dimensional vector. *)
Definition embed_const (_ : text) : result (list Z) := inr [1; 2].

(** An embedding service that answers a 2-dimensional vector but fails
    on texts starting with "b" (rate limited). *)
Definition embed_fail_on_b (t : text) : result (list Z) :=
  match t with
  | c :: _ => if Ascii.eqb c "b"%char
              then inl (ServiceError "429 Resource has been exhausted"%string)
              else inr [1; 2]
  | [] => inr [1; 2]
  end.

(** A store holding an empty 2-dimensional collection "d". *)
Definition store_with_d : wstate :=
  {| w_qdrant := {[ "d" := {| coll_size := 2; coll_distance := Cosine;
                              coll_points := ∅ |} ]};
     w_log := [] |}.

(** A retriever that finds nothing, a model that answers, a model that
    is unavailable. *)
Definition retrieve_nothing (_ : gmap string collection) (_ _ : string) (_ : nat)
    : result (list document) := inr [].
Definition generate_ok (_ : list message) : result string := inr "ok"%string.
Definition generate_down (_ : list message) : result string :=
  inl (ServiceError "503 Service Unavailable").

Definition empty_astate : astate :=
  {| conversation_history := ∅; a_qdrant := ∅; a_calls := [] |}.

Definition mk_turn (q r : string) : turn := {| t_query := q; t_response := r |}.

(** The API process with collection "d" and a four-turn conversation "c1". *)
Definition astate_d : astate :=
  {| conversation_history :=
       {[ "c1" := [mk_turn "q1" "r1"; mk_turn "q2" "r2"; mk_turn "q3" "r3";
                   mk_turn "q4" "r4"] ]};
     a_qdrant := w_qdrant store_with_d;
     a_calls := [] |}.

Definition req_c1 : chat_request :=
  {| req_doc_id := "d"; req_query := "q5"; req_conversation_id := Some "c1" |}.

(* ================================================================== *)
(** * Properties *)

(** ** Chunk sizes *)

(** Turn boolean comparisons on [Z] in the hypotheses into [lia] facts. *)
Ltac zbool :=
  repeat match goal with
  | H : (_ >? _) = true |- _ => rewrite Z.gtb_ltb, Z.ltb_lt in H
  | H : (_ >? _) = false |- _ => rewrite Z.gtb_ltb, Z.ltb_ge in H
  | H : (_ <? _) = true |- _ => rewrite Z.ltb_lt in H
  | H : (_ <? _) = false |- _ => rewrite Z.ltb_ge in H
  end.

Lemma collection_key_str s : collection_key (JStr s) = inr s.
Proof. reflexivity. Qed.

Lemma if_same {A} (b : bool) (x : A) : (if b then x else x) = x.
Proof. by destruct b. Qed.

Lemma len_nil : len [] = 0.
Proof. done. Qed.

Ltac norm_push H :=
  unfold push in H; cbv zeta in H; rewrite ?len_nil, ?if_same in H;
  cbv beta iota in H.

Lemma lstrip_length t : (length (lstrip t) <= length t)%nat.
Proof. induction t as [|c t IH]; simpl; [lia|]. destruct (is_py_space c); simpl; lia. Qed.

Lemma py_strip_length t : (length (py_strip t) <= length t)%nat.
Proof.
  unfold py_strip. rewrite length_rev.
  pose proof (lstrip_length (rev (lstrip t))). rewrite length_rev in H.
  pose proof (lstrip_length t). lia.
Qed.

Lemma sum_len_nonneg cur : 0 <= sum_len cur.
Proof. induction cur; simpl; unfold len in *; lia. Qed.

Lemma sum_len_app cur d : sum_len (cur ++ [d]) = sum_len cur + len d.
Proof. induction cur; simpl; lia. Qed.

Lemma join_nil_length docs : len (join [] docs) = sum_len docs.
Proof.
  induction docs as [|d ds IH]; [done|].
  destruct ds as [|d' ds'].
  - simpl. lia.
  - change (join [] (d :: d' :: ds')) with (d ++ [] ++ join [] (d' :: ds')).
    assert (E : sum_len (d :: d' :: ds') = len d + sum_len (d' :: ds')) by reflexivity.
    rewrite E, <- IH. unfold len. rewrite !length_app. simpl. lia.
Qed.

Lemma join_docs_nil_bound cur c :
  In c (join_docs [] cur) -> len c <= sum_len cur.
Proof.
  unfold join_docs. intros Hin.
  assert (len (py_strip (join [] cur)) <= sum_len cur).
  { rewrite <- join_nil_length. unfold len. pose proof (py_strip_length (join [] cur)). lia. }
  destruct (py_strip (join [] cur)) eqn:E; simpl in Hin; [done|].
  destruct Hin as [<-|[]]. done.
Qed.

Section MergeBound.
Variables (size overlap : Z).
Hypothesis overlap_nonneg : 0 <= overlap.

Lemma pop_front_bound cur total l :
  total = sum_len cur ->
  let '(c', t') := pop_front size overlap [] cur total l in
  t' = sum_len c' /\ t' <= overlap /\ (t' + l <= size \/ t' <= 0).
Proof.
  revert total. induction cur as [|x rest IH]; intros total Ht; simpl.
  - subst total. simpl. destruct (_ || _); simpl; lia.
  - rewrite !if_same. unfold len at 1 2. simpl.
    destruct (_ || _) eqn:E.
    + apply IH. subst total. simpl. unfold len. lia.
    + apply orb_false_iff in E as [E1 E2].
      apply andb_false_iff in E2. zbool. split; [done|]. split; [lia|].
      destruct E2; zbool; lia.
Qed.

Lemma merge_go_bound splits docs cur total :
  (forall d, In d docs -> len d <= size) ->
  total = sum_len cur -> total <= size ->
  (forall s, In s splits -> len s <= size) ->
  forall c, In c (merge_go size overlap [] splits docs cur total) -> len c <= size.
Proof.
  revert docs cur total.
  induction splits as [|d ds IH]; intros docs cur total Hdocs Ht Hsz Hs c Hin;
    cbn [merge_go] in Hin.
  - apply in_app_or in Hin as [Hin|Hin]; [by apply Hdocs|].
    apply join_docs_nil_bound in Hin. lia.
  - assert (Hd : len d <= size) by (apply Hs; left; done).
    assert (Hds : forall s, In s ds -> len s <= size) by (intros; apply Hs; right; done).
    rewrite ?len_nil, ?if_same in Hin.
    destruct (total + len d + 0 >? size) eqn:E; zbool.
    + destruct cur as [|x rest].
      * norm_push Hin.
        eapply IH; [exact Hdocs| | |exact Hds|exact Hin]; simpl in *; lia.
      * pose proof (pop_front_bound (x :: rest) total (len d) Ht) as Hp.
        destruct (pop_front size overlap [] (x :: rest) total (len d)) as [c1 t1].
        destruct Hp as (Ht1 & Hov & Hfit).
        pose proof (sum_len_nonneg c1).
        norm_push Hin.
        eapply IH; [| | |exact Hds|exact Hin].
        -- intros d' Hd'. apply in_app_or in Hd' as [Hd'|Hd']; [by apply Hdocs|].
           apply join_docs_nil_bound in Hd'. lia.
        -- rewrite sum_len_app. lia.
        -- lia.
    + norm_push Hin.
      eapply IH; [exact Hdocs| | |exact Hds|exact Hin].
      * rewrite sum_len_app. lia.
      * lia.
Qed.

Lemma merge_splits_bound splits :
  0 <= size ->
  (forall s, In s splits -> len s <= size) ->
  forall c, In c (merge_splits size overlap [] splits) -> len c <= size.
Proof.
  intros Hsz Hs c Hin. eapply merge_go_bound; [| | | exact Hs | exact Hin]; simpl; done.
Qed.
End MergeBound.

Section SplitBound.
Variable cfg : splitter.
Hypothesis overlap_nonneg : 0 <= chunk_overlap cfg.
Hypothesis size_nonneg : 0 <= chunk_size cfg.
Hypothesis keep : keep_separator cfg = true.

Lemma split_level_fold_bound recur splits final good :
  (forall c, In c final -> len c <= chunk_size cfg) ->
  (forall g, In g good -> len g <= chunk_size cfg) ->
  (forall s, In s splits -> chunk_size cfg <= len s -> recur_ok cfg recur s) ->
  let '(f', g') :=
    fold_left
      (fun '(final, good) s =>
         if len s <? chunk_size cfg then (final, good ++ [s])
         else
           let final := match good with
                        | [] => final
                        | _ => final ++ merge_splits (chunk_size cfg) (chunk_overlap cfg) [] good
                        end in
           let final := match recur with
                        | None => final ++ [s]
                        | Some f => final ++ f s
                        end in
           (final, []))
      splits (final, good) in
  (forall c, In c f' -> len c <= chunk_size cfg) /\
  (forall g, In g g' -> len g <= chunk_size cfg).
Proof.
  revert final good.
  induction splits as [|s ss IH]; intros final good Hf Hg Hs; simpl; [done|].
  destruct (len s <? chunk_size cfg) eqn:E; zbool.
  - apply IH; [done| |intros; apply Hs; [right|]; done].
    intros g Hin. apply in_app_or in Hin as [Hin|[<-|[]]]; [by apply Hg|lia].
  - apply IH; [| done | intros; apply Hs; [right|]; done].
    assert (Hrec : recur_ok cfg recur s) by (apply Hs; [left|]; done).
    intros c Hin.
    assert (Hm : forall c, In c (match good with
                                 | [] => final
                                 | _ => final ++ merge_splits (chunk_size cfg) (chunk_overlap cfg) [] good
                                 end) -> len c <= chunk_size cfg).
    { intros c' Hc'. destruct good; [by apply Hf|].
      apply in_app_or in Hc' as [Hc'|Hc']; [by apply Hf|].
      eapply (merge_splits_bound (chunk_size cfg) (chunk_overlap cfg)); [done|done|exact Hg|exact Hc']. }
    destruct recur as [f|]; simpl in Hrec; [|done].
    apply in_app_or in Hin as [Hin|Hin]; [by apply Hm|by apply Hrec].
Qed.

Lemma split_level_bound sep recur t :
  (forall s, In s (split_text_with_regex sep t (keep_separator cfg)) ->
             chunk_size cfg <= len s -> recur_ok cfg recur s) ->
  forall c, In c (split_level cfg sep recur t) -> len c <= chunk_size cfg.
Proof.
  intros Hs. unfold split_level. rewrite keep.
  pose proof (split_level_fold_bound recur
                (split_text_with_regex sep t true) [] []) as Hfold.
  rewrite keep in Hs.
  destruct (fold_left _ _ _) as [final good].
  destruct Hfold as [Hf Hg]; [done|done|exact Hs|].
  intros c Hin. destruct good as [|g gs]; [by apply Hf|].
  apply in_app_or in Hin as [Hin|Hin]; [by apply Hf|].
  eapply (merge_splits_bound (chunk_size cfg) (chunk_overlap cfg)); [done|done|exact Hg|exact Hin].
Qed.

Lemma split_single_chars t s :
  In s (split_text_with_regex [] t (keep_separator cfg)) -> len s = 1.
Proof. simpl. intros Hin. apply in_map_iff in Hin as (c & <- & _). done. Qed.

Lemma split_text_rec_bound last seps t :
  1 < chunk_size cfg -> In [] seps ->
  forall c, In c (split_text_rec cfg last seps t) -> len c <= chunk_size cfg.
Proof.
  intros Hsz. revert t. induction seps as [|s rest IH]; intros t Hnil; [done|].
  simpl. destruct s as [|a s'].
  - apply split_level_bound. intros s Hs.
    apply split_single_chars in Hs. lia.
  - assert (Hrest : In [] rest) by (destruct Hnil as [Heq|]; [done|done]).
    destruct (contains (a :: s') t); [|by apply IH].
    apply split_level_bound. intros s _ _.
    destruct rest as [|x rest']; [done|].
    simpl. intros c. apply IH. done.
Qed.
End SplitBound.

Lemma skipn_repeat' {A} (x : A) n m : skipn n (repeat x m) = repeat x (m - n).
Proof. revert m. induction n; intros [|m]; simpl; auto. Qed.

Lemma repeat_no_overlap (a b : ascii) m m' k :
  a <> b -> (0 < m)%nat -> (0 < m')%nat -> (0 < k)%nat ->
  firstn k (repeat b m) <> skipn (length (repeat a m') - k) (repeat a m').
Proof.
  intros Hab Hm Hm' Hk. rewrite skipn_repeat', repeat_length.
  destruct m as [|m]; [lia|]. destruct k as [|k]; [lia|].
  destruct (m' - (m' - S k))%nat eqn:E; [lia|]. simpl. congruence.
Qed.

Lemma worker_split_text_bound t c :
  In c (split_text worker_splitter t) -> len c <= 800.
Proof.
  apply (split_text_rec_bound worker_splitter); try done.
  simpl. right; right; right; left; done.
Qed.

Lemma page1_chunks :
  map page_content (split_documents worker_splitter [page1])
  = [par "a"%char 700; par "b"%char 700; par "c"%char 700].
Proof. vm_compute. reflexivity. Qed.

(** C8 (amended): every chunk the worker's splitter produces holds at
    most 800 characters; consecutive chunks are not bound to overlap by
    the configured 100 characters: for a page of three 700-character
    paragraphs there are three chunks and the first two, neither of them
    the final one, share no overlap at all. *)
Theorem chunk_size_bound :
  (forall (docs : list document) (c : document),
     In c (split_documents worker_splitter docs) ->
     (length (page_content c) <= 800)%nat) /\
  exists docs : list document,
    let cs := map page_content (split_documents worker_splitter docs) in
    (3 <= length cs)%nat /\
    forall k, (0 < k)%nat ->
      firstn k (nth 1 cs []) <> skipn (length (nth 0 cs []) - k) (nth 0 cs []).
Proof.
  split.
  - unfold split_documents. intros docs c Hin.
    apply in_flat_map in Hin as (d & _ & Hin).
    apply in_map_iff in Hin as (t & <- & Ht).
    apply worker_split_text_bound in Ht. unfold len in Ht. simpl. lia.
  - exists [page1]. cbv zeta. rewrite page1_chunks. split; [simpl; lia|].
    intros k Hk.
    apply (repeat_no_overlap "a"%char "b"%char 700 700 k); [discriminate|lia..].
Qed.

Lemma chunk_size_bound_witness :
  In (nth 0 (split_documents worker_splitter [page1]) page1)
     (split_documents worker_splitter [page1]) /\
  (length (page_content (nth 0 (split_documents worker_splitter [page1]) page1)) <= 800)%nat.
Proof.
  split.
  - apply nth_In. vm_compute. lia.
  - apply (proj1 chunk_size_bound [page1]). apply nth_In. vm_compute. lia.
Defined.

(** C8 (counterexample): three 700-character paragraphs make three
    chunks, and the first two share no overlap at all, let alone 100
    characters, although the second is not the final chunk. *)
Lemma chunk_overlap_counterexample :
  let cs := map page_content (split_documents worker_splitter [page1]) in
  length cs = 3%nat /\
  forall k, (0 < k)%nat ->
    firstn k (nth 1 cs []) <> skipn (length (nth 0 cs []) - k) (nth 0 cs []).
Proof.
  cbv zeta. rewrite page1_chunks. split; [done|].
  intros k Hk. apply (repeat_no_overlap "a"%char "b"%char 700 700 k); [discriminate|lia..].
Qed.

(** ** The ingestion worker *)

Lemma getitem_missing kvs key :
  ~ In key (map fst kvs) -> getitem (JObj kvs) key = inl (KeyError key).
Proof.
  intros Hk. simpl. destruct (find _ (rev kvs)) as [kv|] eqn:E; [|done].
  apply find_some in E as [Hin Hb]. apply bool_decide_eq_true in Hb.
  apply in_rev in Hin. destruct Hk. rewrite <- Hb. apply in_map. done.
Qed.

Lemma getitem_not_fnf v key e :
  getitem v key = inl e -> is_file_not_found e = false.
Proof.
  destruct v; simpl; try (intros [= <-]; done).
  destruct (find _ _); intros [= <-]; done.
Qed.

Section WorkerProps.
Variable file_exists : string -> bool.
Variable fd_valid : Z -> bool.
Variable load_pdf : json -> result (list document).
Variable embed_query : text -> result (list Z).

Let process := process_pdf file_exists fd_valid load_pdf embed_query.
Let process_try := process_pdf_try file_exists fd_valid load_pdf embed_query.
Let deliver' := deliver file_exists fd_valid load_pdf embed_query.

Lemma deliver_requeued_forever b st n :
  process b st = (inr (Nack true), st) ->
  deliver' n b st = (repeat (Nack true) n, st).
Proof.
  intros Hp. induction n as [|n IH]; [done|].
  unfold deliver' in *. simpl. fold process. rewrite Hp, IH. done.
Qed.

Lemma process_pdf_outcome b st :
  match process_try b st with
  | (inl e, st') => process b st = (inr (Nack (negb (is_file_not_found e))), st')
  | (inr r, st') => process b st = (inr r, st')
  end.
Proof.
  unfold process, process_pdf, try_except. fold process_try.
  destruct (process_try b st) as [[e|r] st']; [|done].
  destruct (is_file_not_found e); done.
Qed.

Lemma store_chunks_from_log name i chunks st r st' :
  store_chunks_from embed_query (JStr name) i chunks st = (r, st') -> r = inr tt ->
  exists new, w_log st' = w_log st ++ new /\ length new = length chunks /\
    forall j ch, chunks !! j = Some ch ->
      exists e, new !! j = Some (QUpsert name [mk_point (i + j) e ch]).
Proof.
  revert i st. induction chunks as [|ch rest IH]; intros i st Hrun Hr.
  - simpl in Hrun. injection Hrun as <- <-. exists []. rewrite app_nil_r. done.
  - simpl in Hrun. unfold bind at 1, lift in Hrun.
    destruct (embed_query (page_content ch)) as [err|e]; [by injection Hrun as <- <-|].
    unfold bind at 1, upsert in Hrun. rewrite collection_key_str in Hrun. unfold bind, lift in Hrun.
    destruct (w_qdrant st !! name) as [c|]; [|by injection Hrun as <- <-].
    destruct (forallb _ _); [|by injection Hrun as <- <-].
    apply IH in Hrun as (new & Hlog & Hlen & Hnth); [|done].
    simpl in Hlog. exists (QUpsert name [mk_point i e ch] :: new).
    split; [rewrite Hlog, <- app_assoc; done|].
    split; [simpl; lia|].
    intros [|j] ch' Hj; simpl in Hj.
    + injection Hj as <-. exists e. rewrite Nat.add_0_r. done.
    + apply Hnth in Hj as (e' & He'). exists e'.
      replace (i + S j)%nat with (S i + j)%nat by lia. exact He'.
Qed.
End WorkerProps.

Lemma ensure_existing st name dim c :
  w_qdrant st !! name = Some c -> ensure_collection (JStr name) dim st = (inr tt, st).
Proof.
  intros E. unfold ensure_collection, try_except, get_collection, bind, lift, ret. simpl.
  rewrite E. done.
Qed.

Lemma ensure_absent st name dim :
  w_qdrant st !! name = None ->
  ensure_collection (JStr name) dim st
  = (inr tt, {| w_qdrant := <[name := {| coll_size := dim; coll_distance := Cosine;
                                          coll_points := ∅ |}]> (delete name (w_qdrant st));
                w_log := w_log st ++ [QRecreate name dim Cosine] |}).
Proof.
  intros E. unfold ensure_collection, try_except, get_collection, bind, lift, ret. simpl.
  rewrite E. done.
Qed.

(** C1: ensuring the collection of a job whose collection already exists
    neither raises nor touches the store (dimensionality and points
    unchanged), and a second ensure after any first one changes nothing. *)
Theorem ensure_collection_idempotent (st : wstate) (name : string) (dim : nat) :
  fst (ensure_collection (JStr name) dim st) = inr tt /\
  (forall c, w_qdrant st !! name = Some c -> snd (ensure_collection (JStr name) dim st) = st) /\
  ensure_collection (JStr name) dim (snd (ensure_collection (JStr name) dim st))
  = (inr tt, snd (ensure_collection (JStr name) dim st)).
Proof.
  destruct (w_qdrant st !! name) as [c|] eqn:E.
  - rewrite (ensure_existing st name dim c E). simpl.
    split; [done|]. split; [done|]. apply (ensure_existing st name dim c E).
  - rewrite (ensure_absent st name dim E). simpl.
    split; [done|]. split; [intros c Hc; congruence|].
    eapply ensure_existing. simpl. apply lookup_insert_eq.
Qed.

Lemma ensure_collection_idempotent_witness :
  w_qdrant store_with_d !! "d"%string
    = Some {| coll_size := 2; coll_distance := Cosine; coll_points := ∅ |} /\
  snd (ensure_collection (JStr "d") 2 store_with_d) = store_with_d.
Proof.
  split; [reflexivity|].
  apply (proj1 (proj2 (ensure_collection_idempotent store_with_d "d" 2))
           {| coll_size := 2; coll_distance := Cosine; coll_points := ∅ |}).
  reflexivity.
Defined.

Lemma missing_file_try file_exists fd_valid load_pdf embed_query st d fp :
  file_exists fp = false ->
  process_pdf_try file_exists fd_valid load_pdf embed_query (job_message d fp) st
  = (inl (FileNotFoundError ("File not found: " ++ fp)), st).
Proof.
  intros H. unfold process_pdf_try, job_message, bind, lift.
  cbn [json_loads].
  assert (Hd : getitem (JObj [("doc_id", JStr d); ("file_path", JStr fp)]) "doc_id"
               = inr (JStr d)) by reflexivity.
  assert (Hf : getitem (JObj [("doc_id", JStr d); ("file_path", JStr fp)]) "file_path"
               = inr (JStr fp)) by reflexivity.
  rewrite Hd, Hf. simpl. rewrite H. reflexivity.
Qed.

(** C2: a well-formed job whose file is missing is rejected without
    requeue; a job whose processing raises anything other than
    [FileNotFoundError] is rejected with requeue. *)
Theorem retry_policy (file_exists : string -> bool) (fd_valid : Z -> bool)
    (load_pdf : json -> result (list document)) (embed_query : text -> result (list Z))
    (st : wstate) :
  (forall doc_id file_path, file_exists file_path = false ->
     process_pdf file_exists fd_valid load_pdf embed_query
       (job_message doc_id file_path) st = (inr (Nack false), st)) /\
  (forall b e st', process_pdf_try file_exists fd_valid load_pdf embed_query b st = (inl e, st') ->
     is_file_not_found e = false ->
     process_pdf file_exists fd_valid load_pdf embed_query b st = (inr (Nack true), st')).
Proof.
  split.
  - intros d fp Hfp.
    pose proof (process_pdf_outcome file_exists fd_valid load_pdf embed_query
                  (job_message d fp) st) as Hp.
    rewrite (missing_file_try _ _ _ _ st d fp Hfp) in Hp. exact Hp.
  - intros b e st' Hrun He.
    pose proof (process_pdf_outcome file_exists fd_valid load_pdf embed_query b st) as Hp.
    rewrite Hrun in Hp. rewrite Hp, He. done.
Qed.

Lemma retry_policy_witness :
  (fun _ : string => false) "/tmp/uploads/d.pdf"%string = false /\
  process_pdf (fun _ => false) (fun _ => true) (fun _ => inr [page1]) embed_const
    (job_message "d" "/tmp/uploads/d.pdf") store_with_d = (inr (Nack false), store_with_d) /\
  is_file_not_found JSONDecodeError = false /\
  process_pdf (fun _ => true) (fun _ => true) (fun _ => inr [page1]) embed_const
    BodyMalformed store_with_d = (inr (Nack true), store_with_d).
Proof.
  split; [reflexivity|]. split.
  - apply (proj1 (retry_policy (fun _ => false) (fun _ => true) (fun _ => inr [page1])
                    embed_const store_with_d)).
    reflexivity.
  - split; [reflexivity|].
    apply (proj2 (retry_policy (fun _ => true) (fun _ => true) (fun _ => inr [page1])
                    embed_const store_with_d) BodyMalformed JSONDecodeError store_with_d);
      reflexivity.
Defined.

(** C6: the chunk loop of one job upserts one point per chunk, in chunk
    order, the i-th chunk as a point with id i. *)
Theorem store_chunks_in_order (embed_query : text -> result (list Z)) (name : string)
    (chunks : list document) (st st' : wstate) (r : result unit) :
  store_chunks embed_query (JStr name) chunks st = (r, st') -> r = inr tt ->
  exists new, w_log st' = w_log st ++ new /\ length new = length chunks /\
    forall i ch, chunks !! i = Some ch ->
      exists e, new !! i = Some (QUpsert name [mk_point i e ch]).
Proof.
  intros Hrun Hr. unfold store_chunks in Hrun.
  apply (store_chunks_from_log embed_query name 0 chunks st r st' Hrun Hr).
Qed.

Lemma store_chunks_in_order_witness :
  exists new,
    w_log (snd (store_chunks embed_const (JStr "d")
                  (split_documents worker_splitter [page1]) store_with_d))
    = w_log store_with_d ++ new /\
    length new = length (split_documents worker_splitter [page1]) /\
    forall i ch, split_documents worker_splitter [page1] !! i = Some ch ->
      exists e, new !! i = Some (QUpsert "d" [mk_point i e ch]).
Proof.
  apply (store_chunks_in_order embed_const "d" (split_documents worker_splitter [page1])
           store_with_d _
           (fst (store_chunks embed_const (JStr "d")
                   (split_documents worker_splitter [page1]) store_with_d))).
  - apply surjective_pairing.
  - vm_compute. reflexivity.
Defined.

Lemma try_decode_error fe fd lp eq st :
  process_pdf_try fe fd lp eq BodyMalformed st = (inl JSONDecodeError, st).
Proof. reflexivity. Qed.

Lemma try_doc_id_error fe fd lp eq st v e :
  getitem v "doc_id" = inl e -> process_pdf_try fe fd lp eq (BodyJson v) st = (inl e, st).
Proof. intros H. unfold process_pdf_try, bind at 1 2, lift at 1 2. simpl. rewrite H. done. Qed.

Lemma try_file_path_error fe fd lp eq st v d e :
  getitem v "doc_id" = inr d -> getitem v "file_path" = inl e ->
  process_pdf_try fe fd lp eq (BodyJson v) st = (inl e, st).
Proof.
  intros H1 H2. unfold process_pdf_try, bind at 1 2 3, lift at 1 2 3. simpl.
  rewrite H1. simpl. rewrite H2. done.
Qed.

Lemma lookup_error_requeued fe fd lp eq st v :
  (exists e, getitem v "doc_id" = inl e) \/ (exists e, getitem v "file_path" = inl e) ->
  process_pdf fe fd lp eq (BodyJson v) st = (inr (Nack true), st).
Proof.
  intros Hmiss.
  pose proof (process_pdf_outcome fe fd lp eq (BodyJson v) st) as Hp.
  destruct (getitem v "doc_id") as [e|d] eqn:Hd.
  - rewrite (try_doc_id_error fe fd lp eq st v e Hd) in Hp.
    rewrite (getitem_not_fnf _ _ _ Hd) in Hp. exact Hp.
  - destruct Hmiss as [[e He]|[e He]]; [congruence|].
    rewrite (try_file_path_error fe fd lp eq st v d e Hd He) in Hp.
    rewrite (getitem_not_fnf _ _ _ He) in Hp. exact Hp.
Qed.

(** C9: a message that is not JSON, is not a JSON object, or lacks the
    doc_id or file_path key is rejected with requeue on every delivery,
    so it is delivered again and again, never dropped. *)
Theorem malformed_job_requeued (fe : string -> bool) (fd : Z -> bool)
    (lp : json -> result (list document)) (eq : text -> result (list Z))
    (st : wstate) (n : nat) :
  deliver fe fd lp eq n BodyMalformed st = (repeat (Nack true) n, st) /\
  (forall kvs, ~ In "doc_id" (map fst kvs) \/ ~ In "file_path" (map fst kvs) ->
     deliver fe fd lp eq n (BodyJson (JObj kvs)) st = (repeat (Nack true) n, st)) /\
  (forall v, (forall kvs, v <> JObj kvs) ->
     deliver fe fd lp eq n (BodyJson v) st = (repeat (Nack true) n, st)).
Proof.
  split; [|split].
  - apply deliver_requeued_forever.
    pose proof (process_pdf_outcome fe fd lp eq BodyMalformed st) as Hp.
    rewrite try_decode_error in Hp. exact Hp.
  - intros kvs Hk. apply deliver_requeued_forever, lookup_error_requeued.
    destruct Hk as [Hk|Hk]; [left|right]; eexists; apply getitem_missing; exact Hk.
  - intros v Hv. apply deliver_requeued_forever, lookup_error_requeued.
    left. destruct v; try (eexists; reflexivity). destruct (Hv kvs). done.
Qed.

Lemma malformed_job_requeued_witness :
  (~ In "doc_id"%string (map fst [("file_path"%string, JStr "/tmp/uploads/d.pdf")]) \/
   ~ In "file_path"%string (map fst [("file_path"%string, JStr "/tmp/uploads/d.pdf")])) /\
  deliver (fun _ => true) (fun _ => true) (fun _ => inr [page1]) embed_const 3
    (BodyJson (JObj [("file_path"%string, JStr "/tmp/uploads/d.pdf")])) store_with_d
  = (repeat (Nack true) 3, store_with_d) /\
  (forall kvs, JStr "d" <> JObj kvs) /\
  deliver (fun _ => true) (fun _ => true) (fun _ => inr [page1]) embed_const 3
    (BodyJson (JStr "d")) store_with_d = (repeat (Nack true) 3, store_with_d).
Proof.
  assert (Hk : ~ In "doc_id"%string (map fst [("file_path"%string, JStr "/tmp/uploads/d.pdf")]) \/
               ~ In "file_path"%string (map fst [("file_path"%string, JStr "/tmp/uploads/d.pdf")]))
    by (left; simpl; intros [H|[]]; discriminate).
  assert (Hv : forall kvs, JStr "d" <> JObj kvs) by discriminate.
  split; [exact Hk|]. split.
  - apply (proj1 (proj2 (malformed_job_requeued (fun _ => true) (fun _ => true)
             (fun _ => inr [page1]) embed_const store_with_d 3)) _ Hk).
  - split; [exact Hv|].
    apply (proj2 (proj2 (malformed_job_requeued (fun _ => true) (fun _ => true)
             (fun _ => inr [page1]) embed_const store_with_d 3)) _ Hv).
Defined.

(** ** The chat endpoint *)

Section ChatProps.
Variable retrieve : gmap string collection -> string -> string -> nat -> result (list document).
Variable generate : list message -> result string.

Lemma rag_chain_invoke_eq tmpl d q h st :
  rag_chain_invoke retrieve generate tmpl d q h st =
  match retrieve (a_qdrant st) d q 5 with
  | inl e => (inl e, with_calls st [CallRetrieve d q 5])
  | inr docs =>
      (generate (format_prompt tmpl q h (context_of docs)),
       with_calls st [CallRetrieve d q 5;
                      CallLLM (format_prompt tmpl q h (context_of docs))])
  end.
Proof.
  unfold rag_chain_invoke, bind, log_call, lift. simpl.
  destruct (retrieve (a_qdrant st) d q 5); [done|].
  unfold with_calls. simpl. rewrite <- app_assoc. done.
Qed.

Lemma chat_try_valid fresh req st c :
  req_doc_id req <> ""%string -> req_query req <> ""%string ->
  a_qdrant st !! req_doc_id req = Some c ->
  chat_try retrieve generate fresh req st =
  (let cid := conversation_id_of fresh req in
   let history := default [] (conversation_history st !! cid) in
   bind (rag_chain_invoke retrieve generate (template_for history)
           (req_doc_id req) (req_query req) (format_history history))
        (fun ans =>
           bind (store_turn cid history {| t_query := req_query req; t_response := ans |})
                (fun _ => ret {| answer := ans; resp_doc_id := req_doc_id req;
                                 resp_conversation_id := cid |}))
        (with_calls st [CallGetCollection (req_doc_id req)])).
Proof.
  intros Hd Hq Hc. unfold chat_try.
  rewrite (bool_decide_eq_false_2 _ Hd), (bool_decide_eq_false_2 _ Hq).
  change (false || false) with false. cbv iota. unfold bind at 1, try_except, api_get_collection, bind at 1, log_call.
  assert (Hc' : a_qdrant (with_calls st [CallGetCollection (req_doc_id req)])
                !! req_doc_id req = Some c) by exact Hc.
  cbv beta. rewrite Hc'. reflexivity.
Qed.
End ChatProps.

Lemma a_qdrant_with_calls st cs : a_qdrant (with_calls st cs) = a_qdrant st.
Proof. done. Qed.

Lemma history_with_calls st cs :
  conversation_history (with_calls st cs) = conversation_history st.
Proof. done. Qed.

Lemma last3_split {A} (h : list A) :
  (3 <= length h)%nat -> exists pre a b c, h = pre ++ [a; b; c].
Proof.
  intros Hl. rewrite <- (rev_involutive h) in Hl |- *. rewrite length_rev in Hl.
  destruct (rev h) as [|c [|b [|a r]]]; simpl in Hl; try lia.
  exists (rev r), a, b, c. simpl. rewrite <- !app_assoc. done.
Qed.

Lemma format_history_app pre a b c :
  format_history (pre ++ [a; b; c])
  = (render_turn a ++ nl_s ++ render_turn b ++ nl_s ++ render_turn c)%string.
Proof.
  unfold format_history, last3. rewrite length_app. simpl.
  rewrite (drop_app_length' pre [a; b; c]) by lia. done.
Qed.

(** C10: a chat request with an empty doc_id or query is answered 400
    and nothing else happens: no call to Qdrant, the retriever or the
    model, and the conversation history is untouched. *)
Theorem empty_field_rejected
    (retrieve : gmap string collection -> string -> string -> nat -> result (list document))
    (generate : list message -> result string)
    (fresh : string) (req : chat_request)
    (st : astate) :
  req_doc_id req = ""%string \/ req_query req = ""%string ->
  chat_with_pdf retrieve generate fresh req st
  = (inl (HTTPException 400 required_detail), st).
Proof.
  intros Hempty. unfold chat_with_pdf, try_except, chat_try.
  assert (Hb : bool_decide (req_doc_id req = ""%string)
               || bool_decide (req_query req = ""%string) = true).
  { apply orb_true_iff. destruct Hempty as [H|H]; [left|right]; apply bool_decide_eq_true; done. }
  rewrite Hb. reflexivity.
Qed.

Lemma empty_field_rejected_witness :
  chat_with_pdf retrieve_nothing generate_ok "u"
    {| req_doc_id := "d"; req_query := ""; req_conversation_id := None |} astate_d
  = (inl (HTTPException 400 required_detail), astate_d).
Proof. apply empty_field_rejected. right. reflexivity. Defined.

(** C4 (amended): a chat request whose doc_id names no existing
    collection is answered 404 (not found, possibly still processing),
    never 500, when doc_id and query are non-empty: the collection lookup
    is the one call made and the conversation history is untouched.  With
    an empty doc_id or query the request is answered 400 before the
    collection is looked up: no call is made and nothing changes. *)
Theorem missing_collection_not_ready
    (retrieve : gmap string collection -> string -> string -> nat -> result (list document))
    (generate : list message -> result string)
    (fresh : string)
    (req : chat_request) (st : astate) :
  a_qdrant st !! req_doc_id req = None ->
  (req_doc_id req <> ""%string -> req_query req <> ""%string ->
   chat_with_pdf retrieve generate fresh req st
   = (inl (HTTPException 404 not_found_detail),
      with_calls st [CallGetCollection (req_doc_id req)])) /\
  (req_doc_id req = ""%string \/ req_query req = ""%string ->
   chat_with_pdf retrieve generate fresh req st
   = (inl (HTTPException 400 required_detail), st)).
Proof.
  intros Hc. split.
  - intros Hd Hq. unfold chat_with_pdf, try_except, chat_try.
    rewrite (bool_decide_eq_false_2 _ Hd), (bool_decide_eq_false_2 _ Hq).
    change (false || false) with false. cbv iota.
    unfold bind at 1, try_except, api_get_collection, bind at 1, log_call.
    assert (Hc' : a_qdrant (with_calls st [CallGetCollection (req_doc_id req)])
                  !! req_doc_id req = None) by exact Hc.
    cbv beta. rewrite Hc'. reflexivity.
  - intros Hempty. unfold chat_with_pdf, try_except, chat_try.
    assert (Hb : bool_decide (req_doc_id req = ""%string)
                 || bool_decide (req_query req = ""%string) = true).
    { apply orb_true_iff.
      destruct Hempty as [H|H]; [left|right]; apply bool_decide_eq_true; done. }
    rewrite Hb. reflexivity.
Qed.

Lemma missing_collection_not_ready_witness :
  chat_with_pdf retrieve_nothing generate_ok "u"
    {| req_doc_id := "e"; req_query := "q"; req_conversation_id := None |} astate_d
  = (inl (HTTPException 404 not_found_detail),
     with_calls astate_d [CallGetCollection "e"]) /\
  chat_with_pdf retrieve_nothing generate_ok "u"
    {| req_doc_id := "e"; req_query := ""; req_conversation_id := None |} astate_d
  = (inl (HTTPException 400 required_detail), astate_d).
Proof.
  split.
  - apply (proj1 (missing_collection_not_ready retrieve_nothing generate_ok "u"
                    {| req_doc_id := "e"; req_query := "q"; req_conversation_id := None |}
                    astate_d eq_refl)); done.
  - apply (proj2 (missing_collection_not_ready retrieve_nothing generate_ok "u"
                    {| req_doc_id := "e"; req_query := ""; req_conversation_id := None |}
                    astate_d eq_refl)). right. reflexivity.
Defined.

(** C4 (counterexample): a request naming doc_id "d", whose collection
    does not exist, with an empty query is answered 400, not 404. *)
Lemma not_ready_counterexample :
  empty_astate.(a_qdrant) !! "d"%string = None /\
  fst (chat_with_pdf retrieve_nothing generate_ok "u"
         {| req_doc_id := "d"; req_query := ""; req_conversation_id := None |}
         empty_astate)
  = inl (HTTPException 400 required_detail) /\
  fst (chat_with_pdf retrieve_nothing generate_ok "u"
         {| req_doc_id := "d"; req_query := ""; req_conversation_id := None |}
         empty_astate)
  <> inl (HTTPException 404 not_found_detail).
Proof. vm_compute. split; [done|]. split; [done|]. congruence. Qed.

(** C3: when the model raises (a non-HTTP error) the caller gets the
    generic 500 failure and the conversation history is as before. *)
Theorem chat_generation_failure_atomic
    (retrieve : gmap string collection -> string -> string -> nat -> result (list document))
    (generate : list message -> result string)
    (fresh : string)
    (req : chat_request) (st : astate) (docs : list document) (e : exn) :
  req_doc_id req <> ""%string -> req_query req <> ""%string ->
  is_Some (a_qdrant st !! req_doc_id req) ->
  retrieve (a_qdrant st) (req_doc_id req) (req_query req) 5%nat = inr docs ->
  (forall msgs, generate msgs = inl e) -> is_http_exception e = false ->
  fst (chat_with_pdf retrieve generate fresh req st)
  = inl (HTTPException 500 ("Chat failed: " ++ exn_str e)) /\
  conversation_history (snd (chat_with_pdf retrieve generate fresh req st))
  = conversation_history st.
Proof.
  intros Hd Hq [c Hc] Hr Hg He.
  unfold chat_with_pdf, try_except.
  rewrite (chat_try_valid retrieve generate fresh req st c Hd Hq Hc).
  cbv zeta. unfold bind.
  rewrite rag_chain_invoke_eq, a_qdrant_with_calls, Hr, Hg. simpl.
  rewrite He. simpl. done.
Qed.

Lemma chat_generation_failure_atomic_witness :
  fst (chat_with_pdf retrieve_nothing generate_down "u" req_c1 astate_d)
  = inl (HTTPException 500 ("Chat failed: " ++ exn_str (ServiceError "503 Service Unavailable"))) /\
  conversation_history (snd (chat_with_pdf retrieve_nothing generate_down "u" req_c1 astate_d))
  = conversation_history astate_d.
Proof.
  apply (chat_generation_failure_atomic retrieve_nothing generate_down "u" req_c1 astate_d []);
    try done.
Defined.

Lemma template_for_app pre (a b c : turn) : template_for (pre ++ [a; b; c]) = WithHistory.
Proof. by destruct pre. Qed.

(** C5: with more than 3 stored turns, the prompt sent to the model
    carries exactly the last 3 turns, oldest first, as Human/Assistant
    lines, in the history section of the system message. *)
Theorem prompt_uses_last_three_turns
    (retrieve : gmap string collection -> string -> string -> nat -> result (list document))
    (generate : list message -> result string)
    (fresh : string) (req : chat_request) (st : astate) (h : list turn)
    (docs : list document) :
  req_doc_id req <> ""%string -> req_query req <> ""%string ->
  is_Some (a_qdrant st !! req_doc_id req) ->
  conversation_history st !! conversation_id_of fresh req = Some h ->
  (3 < length h)%nat ->
  retrieve (a_qdrant st) (req_doc_id req) (req_query req) 5%nat = inr docs ->
  exists pre a b c, h = pre ++ [a; b; c] /\
    In (CallLLM
          [(System, system_intro ++ nl_s ++ nl_s ++ "Conversation History:" ++ nl_s
                    ++ (render_turn a ++ nl_s ++ render_turn b ++ nl_s ++ render_turn c)
                    ++ nl_s ++ nl_s ++ "Retrieved Context:" ++ nl_s ++ context_of docs)%string;
           (Human, req_query req)])
       (a_calls (snd (chat_with_pdf retrieve generate fresh req st))).
Proof.
  intros Hd Hq [col Hc] Hh Hlen Hr.
  destruct (last3_split h) as (pre & a & b & c & ->); [lia|].
  exists pre, a, b, c. split; [done|].
  unfold chat_with_pdf, try_except.
  rewrite (chat_try_valid retrieve generate fresh req st col Hd Hq Hc).
  cbv zeta. rewrite Hh. simpl default.
  unfold bind. rewrite rag_chain_invoke_eq, a_qdrant_with_calls, Hr.
  rewrite template_for_app, format_history_app.
  assert (Hin : forall st' : astate,
             a_calls st' = a_calls (with_calls (with_calls st [CallGetCollection (req_doc_id req)])
                            [CallRetrieve (req_doc_id req) (req_query req) 5;
                             CallLLM (format_prompt WithHistory (req_query req)
                               (render_turn a ++ nl_s ++ render_turn b ++ nl_s ++ render_turn c)%string
                               (context_of docs))]) ->
             In (CallLLM
                   [(System, system_intro ++ nl_s ++ nl_s ++ "Conversation History:" ++ nl_s
                             ++ (render_turn a ++ nl_s ++ render_turn b ++ nl_s ++ render_turn c)
                             ++ nl_s ++ nl_s ++ "Retrieved Context:" ++ nl_s ++ context_of docs)%string;
                    (Human, req_query req)]) (a_calls st')).
  { intros st' ->. simpl. apply in_app_iff. right. right. left. reflexivity. }
  destruct (generate _) as [e|ans].
  - destruct (is_http_exception e); apply Hin; reflexivity.
  - apply Hin. reflexivity.
Qed.

Lemma prompt_uses_last_three_turns_witness :
  exists pre a b c,
    [mk_turn "q1" "r1"; mk_turn "q2" "r2"; mk_turn "q3" "r3"; mk_turn "q4" "r4"]
    = pre ++ [a; b; c] /\
    In (CallLLM
          [(System, system_intro ++ nl_s ++ nl_s ++ "Conversation History:" ++ nl_s
                    ++ (render_turn a ++ nl_s ++ render_turn b ++ nl_s ++ render_turn c)
                    ++ nl_s ++ nl_s ++ "Retrieved Context:" ++ nl_s ++ context_of [])%string;
           (Human, "q5"%string)])
       (a_calls (snd (chat_with_pdf retrieve_nothing generate_ok "u" req_c1 astate_d))).
Proof.
  apply (prompt_uses_last_three_turns retrieve_nothing generate_ok "u" req_c1 astate_d);
    try done.
  all: vm_compute; try lia; try (eexists; reflexivity); try reflexivity.
Defined.

(** ** The status stream *)

Lemma polling_S d m :
  polling d (S m) = Yield Processing d :: SleepFor 2 :: polling d m.
Proof. done. Qed.

Lemma polling_no_processed d m : ~ In (Yield Processed d) (polling d m).
Proof.
  induction m as [|m IH]; [intros []|]. rewrite polling_S.
  intros [H|[H|H]]; [discriminate|discriminate|done].
Qed.

Lemma event_generator_shape check d n k :
  event_generator check d n k = polling d n \/
  exists m, (m < n)%nat /\ event_generator check d n k = polling d m ++ [Yield Processed d; Close].
Proof.
  revert k. induction n as [|n IH]; intros k; [left; done|].
  simpl. destruct (check k).
  - right. exists 0%nat. split; [lia|done].
  - destruct (IH (S k)) as [E|(m & Hm & E)]; rewrite E.
    + left. done.
    + right. exists (S m). split; [lia|done].
Qed.

Lemma event_generator_polls check d n k m :
  (m <= n)%nat -> (forall j, (j < m)%nat -> check (k + j)%nat = false) ->
  event_generator check d n k = polling d m ++ event_generator check d (n - m) (k + m).
Proof.
  revert n k. induction m as [|m IH]; intros n k Hmn Hc.
  - rewrite Nat.sub_0_r, Nat.add_0_r. done.
  - destruct n as [|n]; [lia|].
    assert (Hk : check k = false) by (rewrite <- (Nat.add_0_r k); apply Hc; lia).
    simpl. rewrite Hk.
    rewrite (IH n (S k)); [| lia |].
    + replace (S k + m)%nat with (k + S m)%nat by lia. done.
    + intros j Hj. replace (S k + j)%nat with (k + S j)%nat by lia. apply Hc. lia.
Qed.

Lemma app_cons_unique (xs pre post ys : list stream_item) y :
  ~ In y xs -> ~ In y ys -> pre ++ y :: post = xs ++ y :: ys -> post = ys.
Proof.
  revert pre. induction xs as [|x xs IH]; intros pre Hx Hy E.
  - destruct pre as [|z pre]; simpl in E; [by injection E|].
    injection E as -> E. destruct Hy. rewrite <- E. apply in_app_iff. right. left. done.
  - destruct pre as [|z pre]; simpl in E.
    + injection E as -> _. destruct Hx. left. done.
    + injection E as -> E. apply (IH pre); [intros H; apply Hx; right; done|done|done].
Qed.

(** C7: the stream yields "processing" (then sleeps 2 seconds) for every
    check that finds no collection; at the first check that finds it, it
    yields one "processed" event and closes; nothing follows "processed". *)
Theorem status_stream_events (check : nat -> bool) (doc_id : string) (n : nat) :
  (forall pre post, event_generator check doc_id n 0 = pre ++ Yield Processed doc_id :: post ->
                    post = [Close]) /\
  (forall m, (m < n)%nat -> (forall j, (j < m)%nat -> check j = false) -> check m = true ->
     event_generator check doc_id n 0 = polling doc_id m ++ [Yield Processed doc_id; Close]) /\
  ((forall j, (j < n)%nat -> check j = false) ->
     event_generator check doc_id n 0 = polling doc_id n).
Proof.
  split; [|split].
  - intros pre post E.
    destruct (event_generator_shape check doc_id n 0) as [E'|(m & _ & E')]; rewrite E' in E.
    + destruct (polling_no_processed doc_id n). rewrite E. apply in_app_iff. right. left. done.
    + apply (app_cons_unique (polling doc_id m) pre post [Close] (Yield Processed doc_id));
        [apply polling_no_processed|intros [H|[]]; discriminate|exact (eq_sym E)].
  - intros m Hm Hc Hcm. rewrite (event_generator_polls check doc_id n 0 m); [|lia|done].
    destruct (n - m)%nat as [|r] eqn:Er; [lia|]. simpl. rewrite Hcm. done.
  - intros Hc. rewrite (event_generator_polls check doc_id n 0 n); [|lia|done].
    rewrite Nat.sub_diag, app_nil_r. done.
Qed.

Lemma status_stream_events_witness :
  ((1 < 5)%nat /\ (forall j, (j < 1)%nat -> Nat.leb 1 j = false) /\ Nat.leb 1 1 = true) /\
  event_generator (fun j => Nat.leb 1 j) "d" 5 0
  = polling "d" 1 ++ [Yield Processed "d"; Close] /\
  (forall j, (j < 5)%nat -> (fun _ : nat => false) j = false) /\
  event_generator (fun _ => false) "d" 5 0 = polling "d" 5.
Proof.
  assert (H0 : forall j, (j < 1)%nat -> Nat.leb 1 j = false)
    by (intros j Hj; apply Nat.leb_gt; lia).
  assert (H1 : forall j, (j < 5)%nat -> (fun _ : nat => false) j = false) by reflexivity.
  split; [split; [lia|split; [exact H0|reflexivity]]|]. split.
  - apply (proj1 (proj2 (status_stream_events (fun j => Nat.leb 1 j) "d" 5)) 1%nat);
      [lia|exact H0|reflexivity].
  - split; [exact H1|].
    apply (proj2 (proj2 (status_stream_events (fun _ => false) "d" 5)) H1).
Defined.

(* ================================================================== *)
(** * Further properties of the backend *)

(** ** Start-up check *)

(** A required variable that is unset or empty makes the import raise;
    the message lists exactly those variables, in the order of
    [required_vars]. *)
Theorem startup_check (getenv : string -> option string) :
  (validate_env getenv = None <->
     forall var, In var required_vars -> exists v, getenv var = Some v /\ v <> ""%string) /\
  (forall msg, validate_env getenv = Some msg ->
     exists ms, msg = ("Missing required environment variables: " ++ join_str ", " ms
                       ++ ". Please check your .env file.")%string /\
       ms <> [] /\ NoDup ms /\
       forall var, In var ms <->
         In var required_vars /\ (getenv var = None \/ getenv var = Some ""%string)).
Proof.
  assert (Hm : forall var, In var (missing_vars getenv) <->
            In var required_vars /\ (getenv var = None \/ getenv var = Some ""%string)).
  { intros var. unfold missing_vars. rewrite filter_In. unfold env_unset.
    destruct (getenv var) as [v|]; [|intuition congruence].
    rewrite bool_decide_eq_true. intuition congruence. }
  assert (Hnd : NoDup (missing_vars getenv)).
  { unfold missing_vars. apply NoDup_ListNoDup, List.NoDup_filter.
    repeat constructor; simpl; intuition discriminate. }
  unfold validate_env. split.
  - destruct (missing_vars getenv) as [|m ms] eqn:E; split.
    + intros _ var Hin. destruct (getenv var) as [v|] eqn:Hv.
      * exists v. split; [done|]. intros ->.
        apply (proj2 (Hm var)). auto.
      * exfalso. apply (proj2 (Hm var)). auto.
    + done.
    + discriminate.
    + intros Hall. exfalso.
      destruct (proj1 (Hm m) (or_introl eq_refl)) as [Hin Hu].
      destruct (Hall m Hin) as (v & Hv & Hne). destruct Hu; congruence.
  - intros msg Hmsg. destruct (missing_vars getenv) as [|m ms] eqn:E; [discriminate|].
    injection Hmsg as <-. exists (m :: ms). split; [done|]. split; [done|].
    split; [exact Hnd|]. exact Hm.
Qed.

(** ** The intake endpoint *)

(** A content type that is absent, empty or does not contain "pdf"
    (in any letter case) is answered 400, and nothing is written or
    published. *)
Theorem upload_rejects_non_pdf (connect : result unit) (fresh : string)
    (content_type : option string) (content : list Byte.byte) (st : ustate) :
  not_pdf content_type = true ->
  upload_pdf connect fresh content_type content st
  = (inl (HTTPException 400 only_pdf_detail), st).
Proof. intros H. unfold upload_pdf, upload_try, try_except. rewrite H. done. Qed.

Lemma upload_rejects_non_pdf_witness :
  not_pdf (Some "text/plain"%string) = true /\
  upload_pdf (inr tt) "u" (Some "text/plain"%string) [] {| u_files := ∅; u_queue := [] |}
  = (inl (HTTPException 400 only_pdf_detail), {| u_files := ∅; u_queue := [] |}).
Proof. split; [reflexivity|]. apply upload_rejects_non_pdf. reflexivity. Defined.

(** An accepted upload returns the fresh id, stores the content at
    /tmp/uploads/<doc_id>.pdf and appends one job naming that id and
    that path to the queue. *)
Theorem upload_publishes_job (connect : result unit) (fresh : string)
    (content_type : option string) (content : list Byte.byte) (st : ustate) :
  not_pdf content_type = false -> connect = inr tt ->
  upload_pdf connect fresh content_type content st
  = (inr fresh,
     {| u_files := <[upload_file_path fresh := content]> (u_files st);
        u_queue := u_queue st ++ [job_message fresh (upload_file_path fresh)] |}).
Proof.
  intros H ->. unfold upload_pdf, upload_try, try_except. rewrite H. done.
Qed.

Lemma upload_publishes_job_witness :
  not_pdf (Some "application/PDF"%string) = false /\
  upload_pdf (inr tt) "u" (Some "application/PDF"%string) [] {| u_files := ∅; u_queue := [] |}
  = (inr "u"%string,
     {| u_files := <[upload_file_path "u" := []]> ∅;
        u_queue := [job_message "u" (upload_file_path "u")] |}).
Proof. split; [reflexivity|]. apply (upload_publishes_job (inr tt)); reflexivity. Defined.

(** When the broker cannot be reached the upload fails with 500, but
    the file was written before and stays; no job is queued. *)
Theorem upload_broker_down (connect : result unit) (fresh : string)
    (content_type : option string) (content : list Byte.byte) (st : ustate) (e : exn) :
  not_pdf content_type = false -> connect = inl e -> is_http_exception e = false ->
  upload_pdf connect fresh content_type content st
  = (inl (HTTPException 500 ("Upload failed: " ++ exn_str e)),
     {| u_files := <[upload_file_path fresh := content]> (u_files st);
        u_queue := u_queue st |}).
Proof.
  intros H -> He. unfold upload_pdf, upload_try, try_except. rewrite H.
  simpl. rewrite He. done.
Qed.

Lemma upload_broker_down_witness :
  not_pdf (Some "application/pdf"%string) = false /\
  is_http_exception (ServiceError "AMQPConnectionError") = false /\
  upload_pdf (inl (ServiceError "AMQPConnectionError")) "u" (Some "application/pdf"%string) []
    {| u_files := ∅; u_queue := [] |}
  = (inl (HTTPException 500 ("Upload failed: " ++ exn_str (ServiceError "AMQPConnectionError"))),
     {| u_files := <[upload_file_path "u" := []]> ∅; u_queue := [] |}).
Proof.
  split; [reflexivity|]. split; [reflexivity|].
  apply (upload_broker_down (inl (ServiceError "AMQPConnectionError")) "u"
           (Some "application/pdf"%string) [] {| u_files := ∅; u_queue := [] |}
           (ServiceError "AMQPConnectionError")); reflexivity.
Defined.

(** ** The worker's effect on the vector store *)

Lemma process_job_try fe fd lp eq d fp st :
  process_pdf_try fe fd lp eq (job_message d fp) st =
  if fe fp then
    match lp (JStr fp) with
    | inl e => (inl e, st)
    | inr docs =>
        match eq (txt "test") with
        | inl e => (inl e, st)
        | inr v =>
            bind (ensure_collection (JStr d) (length v))
              (fun _ => bind (store_chunks eq (JStr d) (split_documents worker_splitter docs))
                          (fun _ => ret Ack)) st
        end
    end
  else (inl (FileNotFoundError ("File not found: " ++ fp)), st).
Proof.
  destruct (fe fp) eqn:Hfe; [|by apply missing_file_try].
  destruct (lp (JStr fp)) as [e|docs] eqn:Hlp;
    [|destruct (eq (txt "test")) as [e|v] eqn:Heq];
    unfold process_pdf_try, job_message, bind, lift, ret, raise; cbn [json_loads];
    assert (Hd : getitem (JObj [("doc_id", JStr d); ("file_path", JStr fp)]) "doc_id"
                 = inr (JStr d)) by reflexivity;
    assert (Hf : getitem (JObj [("doc_id", JStr d); ("file_path", JStr fp)]) "file_path"
                 = inr (JStr fp)) by reflexivity;
    rewrite Hd, Hf; cbn [os_path_exists]; rewrite Hfe, Hlp; try rewrite Heq; reflexivity.
Qed.

Lemma ensure_result st name dim :
  exists c st', ensure_collection (JStr name) dim st = (inr tt, st') /\
    w_qdrant st' !! name = Some c /\
    w_log st' = w_log st ++ (if w_qdrant st !! name then [] else [QRecreate name dim Cosine]) /\
    (forall k, k <> name -> w_qdrant st' !! k = w_qdrant st !! k) /\
    match w_qdrant st !! name with
    | Some c0 => c = c0
    | None => c = {| coll_size := dim; coll_distance := Cosine; coll_points := ∅ |}
    end.
Proof.
  destruct (w_qdrant st !! name) as [c0|] eqn:E.
  - exists c0, st. rewrite (ensure_existing st name dim c0 E), app_nil_r. done.
  - eexists _, _. rewrite (ensure_absent st name dim E). split; [done|]. simpl.
    split; [apply lookup_insert_eq|]. split; [done|]. split; [|done].
    intros k Hk. rewrite lookup_insert_ne by congruence. apply lookup_delete_ne. congruence.
Qed.

Lemma insert_points_seq m pts i k :
  (forall j p, pts !! j = Some p -> point_id p = (i + j)%nat) ->
  insert_points m pts !! k =
  if bool_decide (i <= k < i + length pts)%nat then pts !! (k - i)%nat else m !! k.
Proof.
  revert m i. induction pts as [|p ps IH]; intros m i Hid.
  - simpl. rewrite bool_decide_eq_false_2 by lia. done.
  - change (insert_points m (p :: ps)) with (insert_points (<[point_id p := p]> m) ps).
    rewrite (Hid 0%nat p eq_refl), Nat.add_0_r.
    rewrite (IH _ (S i)); [|intros j q Hq; rewrite (Hid (S j) q Hq); lia].
    simpl length. case_bool_decide; case_bool_decide; try lia.
    + replace (k - i)%nat with (S (k - S i)) by lia. done.
    + assert (k = i) as -> by lia. rewrite lookup_insert_eq, Nat.sub_diag. done.
    + rewrite lookup_insert_ne by lia. done.
Qed.

Lemma embed_points_spec eq i chunks pts :
  embed_points eq i chunks = Some pts ->
  length pts = length chunks /\
  forall j, pts !! j = chunks !! j ≫= (fun ch =>
    match eq (page_content ch) with
    | inr e => Some (mk_point (i + j) e ch)
    | inl _ => None
    end).
Proof.
  revert i pts. induction chunks as [|ch rest IH]; intros i pts H.
  - injection H as <-. split; [done|]. intros j. rewrite lookup_nil. done.
  - simpl in H. destruct (eq (page_content ch)) as [err|e] eqn:He; [discriminate|].
    destruct (embed_points eq (S i) rest) as [pts'|] eqn:Hr; [|discriminate].
    injection H as <-. destruct (IH (S i) pts' Hr) as [Hl Hj].
    split; [simpl; lia|]. intros [|j]; simpl.
    + rewrite He, Nat.add_0_r. done.
    + rewrite Hj. replace (S i + j)%nat with (i + S j)%nat by lia. done.
Qed.

Lemma embed_points_ids eq i chunks pts :
  embed_points eq i chunks = Some pts ->
  forall j p, pts !! j = Some p -> point_id p = (i + j)%nat.
Proof.
  intros H j p Hp. destruct (embed_points_spec eq i chunks pts H) as [_ Hj].
  rewrite Hj in Hp. destruct (chunks !! j) as [ch|]; simpl in Hp; [|discriminate].
  destruct (eq (page_content ch)); [discriminate|]. injection Hp as <-. done.
Qed.

Lemma store_chunks_from_inv eq name i chunks st c r st' :
  w_qdrant st !! name = Some c ->
  store_chunks_from eq (JStr name) i chunks st = (r, st') -> r = inr tt ->
  exists pts, embed_points eq i chunks = Some pts /\
    Forall (fun p => length (point_vector p) = coll_size c) pts /\
    st' = after_upserts st name c pts.
Proof.
  revert i st c. induction chunks as [|ch rest IH]; intros i st c Hc Hrun Hr.
  - injection Hrun as <- <-. exists []. split; [done|]. split; [done|].
    destruct st as [q l], c as [sz ds ps]. unfold after_upserts. simpl in *.
    rewrite app_nil_r, insert_id by done. done.
  - simpl in Hrun. unfold bind at 1, lift in Hrun.
    destruct (eq (page_content ch)) as [err|e] eqn:He; [by injection Hrun as <- <-|].
    unfold bind at 1, upsert in Hrun. rewrite collection_key_str in Hrun. unfold bind, lift in Hrun. rewrite Hc in Hrun.
    simpl in Hrun. destruct (Nat.eqb (length e) (coll_size c)) eqn:Hlen;
      [|by injection Hrun as <- <-].
    apply Nat.eqb_eq in Hlen.
    eapply IH in Hrun as (pts & Hpts & Hdim & ->); [|simpl; apply lookup_insert_eq|done].
    simpl. rewrite He, Hpts. exists (mk_point i e ch :: pts). split; [done|].
    split; [constructor; [done|exact Hdim]|].
    unfold after_upserts. simpl. rewrite insert_insert_eq, <- app_assoc. done.
Qed.

Lemma store_chunks_from_run eq name i chunks st c pts :
  w_qdrant st !! name = Some c ->
  embed_points eq i chunks = Some pts ->
  Forall (fun p => length (point_vector p) = coll_size c) pts ->
  store_chunks_from eq (JStr name) i chunks st = (inr tt, after_upserts st name c pts).
Proof.
  revert i st c pts. induction chunks as [|ch rest IH]; intros i st c pts Hc Hpts Hdim.
  - injection Hpts as <-. destruct st as [q l], c as [sz ds ps]. unfold after_upserts.
    simpl in *. rewrite app_nil_r, insert_id by done. done.
  - simpl in Hpts. destruct (eq (page_content ch)) as [err|e] eqn:He; [discriminate|].
    destruct (embed_points eq (S i) rest) as [pts'|] eqn:Hr; [|discriminate].
    injection Hpts as <-. inversion Hdim as [|? ? Hlen Hdim']; subst.
    simpl. unfold bind at 1, lift. rewrite He.
    unfold bind at 1, upsert. rewrite collection_key_str. unfold bind, lift. rewrite Hc. simpl.
    simpl in Hlen. rewrite (proj2 (Nat.eqb_eq _ _) Hlen).
    set (c1 := {| coll_size := coll_size c; coll_distance := coll_distance c;
                  coll_points := <[i := mk_point i e ch]> (coll_points c) |}).
    change (true && true) with true. cbv iota beta.
    rewrite (IH (S i) _ c1 pts'); [|simpl; apply lookup_insert_eq|done|exact Hdim'].
    unfold after_upserts. simpl. rewrite insert_insert_eq, <- app_assoc. done.
Qed.

Lemma process_job_ack fe fd lp eq d fp st st' :
  process_pdf fe fd lp eq (job_message d fp) st = (inr Ack, st') ->
  fe fp = true /\ exists docs v st1 c pts,
    lp (JStr fp) = inr docs /\ eq (txt "test") = inr v /\
    ensure_collection (JStr d) (length v) st = (inr tt, st1) /\
    w_qdrant st1 !! d = Some c /\
    embed_points eq 0 (split_documents worker_splitter docs) = Some pts /\
    Forall (fun p => length (point_vector p) = coll_size c) pts /\
    st' = after_upserts st1 d c pts.
Proof.
  intros Hack.
  pose proof (process_pdf_outcome fe fd lp eq (job_message d fp) st) as Hp.
  rewrite process_job_try in Hp.
  destruct (fe fp); [|rewrite Hp in Hack; discriminate].
  split; [done|].
  destruct (lp (JStr fp)) as [e|docs]; [rewrite Hp in Hack; discriminate|].
  destruct (eq (txt "test")) as [e|v]; [rewrite Hp in Hack; discriminate|].
  destruct (ensure_result st d (length v)) as (c & st1 & Hens & Hc & _).
  unfold bind at 1 in Hp. rewrite Hens in Hp.
  unfold bind in Hp. unfold store_chunks in Hp.
  destruct (store_chunks_from eq (JStr d) 0 (split_documents worker_splitter docs) st1)
    as [[e|[]] st2] eqn:Hs.
  - rewrite Hp in Hack. discriminate.
  - rewrite Hp in Hack. injection Hack as <-.
    destruct (store_chunks_from_inv eq d 0 _ st1 c _ st2 Hc Hs eq_refl) as (pts & Hpts & Hdim & ->).
    exists docs, v, st1, c, pts. done.
Qed.

Lemma insert_points_twice m pts i :
  (forall j p, pts !! j = Some p -> point_id p = (i + j)%nat) ->
  insert_points (insert_points m pts) pts = insert_points m pts.
Proof.
  intros Hid. apply map_eq. intros k.
  rewrite !(insert_points_seq _ pts i k Hid). case_bool_decide; done.
Qed.

(** After the worker acknowledges a job whose collection did not exist,
    the collection exists with the dimensionality of the sample
    embedding and the cosine metric, and point k is exactly the k-th
    chunk with its embedding; no other collection changed. *)
Theorem worker_fills_new_collection (fe : string -> bool) (fd : Z -> bool)
    (lp : json -> result (list document)) (eq : text -> result (list Z))
    (d fp : string) (docs : list document) (v : list Z) (st st' : wstate) :
  w_qdrant st !! d = None ->
  lp (JStr fp) = inr docs -> eq (txt "test") = inr v ->
  process_pdf fe fd lp eq (job_message d fp) st = (inr Ack, st') ->
  exists c, w_qdrant st' !! d = Some c /\
    coll_size c = length v /\ coll_distance c = Cosine /\
    (forall k, coll_points c !! k =
       split_documents worker_splitter docs !! k ≫= (fun ch =>
         match eq (page_content ch) with
         | inr e => Some (mk_point k e ch)
         | inl _ => None
         end)) /\
    (forall d', d' <> d -> w_qdrant st' !! d' = w_qdrant st !! d').
Proof.
  intros Hnone Hlp Htest Hack.
  destruct (process_job_ack fe fd lp eq d fp st st' Hack)
    as (_ & docs' & v' & st1 & c & pts & Hlp' & Htest' & Hens & Hc & Hpts & _ & ->).
  rewrite Hlp in Hlp'. injection Hlp' as <-. rewrite Htest in Htest'. injection Htest' as <-.
  rewrite (ensure_absent st d (length v) Hnone) in Hens. injection Hens as <-.
  simpl in Hc. rewrite lookup_insert_eq in Hc. injection Hc as <-.
  eexists. split; [simpl; apply lookup_insert_eq|]. split; [done|]. split; [done|]. split.
  - intros k. simpl. pose proof (embed_points_ids eq 0 _ pts Hpts) as Hid.
    destruct (embed_points_spec eq 0 _ pts Hpts) as [Hlen Hj].
    rewrite (insert_points_seq _ pts 0 k Hid). case_bool_decide as Hk.
    + rewrite Nat.sub_0_r, Hj. done.
    + rewrite lookup_empty. symmetry.
      rewrite (proj2 (lookup_ge_None _ _)); [done|]. lia.
  - intros d' Hd'. simpl. rewrite !lookup_insert_ne by congruence.
    apply lookup_delete_ne. congruence.
Qed.

Lemma worker_fills_new_collection_witness :
  exists c,
    w_qdrant (snd (process_pdf (fun _ => true) (fun _ => true) (fun _ => inr [page1])
                     embed_const (job_message "e" "/tmp/uploads/e.pdf") store_with_d))
      !! "e"%string = Some c /\
    coll_size c = 2%nat /\ coll_distance c = Cosine.
Proof.
  assert (H : fst (process_pdf (fun _ => true) (fun _ => true) (fun _ => inr [page1])
                     embed_const (job_message "e" "/tmp/uploads/e.pdf") store_with_d)
              = inr Ack) by (vm_compute; reflexivity).
  destruct (worker_fills_new_collection (fun _ => true) (fun _ => true) (fun _ => inr [page1])
              embed_const "e" "/tmp/uploads/e.pdf" [page1] [1; 2] store_with_d
              (snd (process_pdf (fun _ => true) (fun _ => true) (fun _ => inr [page1])
                     embed_const (job_message "e" "/tmp/uploads/e.pdf") store_with_d)))
    as (c & Hc & Hsz & Hdist & _); [reflexivity|reflexivity|reflexivity| |].
  - rewrite <- H. apply surjective_pairing.
  - exists c. done.
Defined.

(** Processing a job again after it was acknowledged (a redelivery, or
    the same message published twice) is acknowledged again and leaves
    the vector store exactly as it was: the same points are upserted
    under the same ids. *)
Theorem reprocessing_keeps_store (fe : string -> bool) (fd : Z -> bool)
    (lp : json -> result (list document)) (eq : text -> result (list Z))
    (d fp : string) (st st1 : wstate) :
  process_pdf fe fd lp eq (job_message d fp) st = (inr Ack, st1) ->
  exists st2, process_pdf fe fd lp eq (job_message d fp) st1 = (inr Ack, st2) /\
    w_qdrant st2 = w_qdrant st1.
Proof.
  intros Hack.
  destruct (process_job_ack fe fd lp eq d fp st st1 Hack)
    as (Hfe & docs & v & s1 & c & pts & Hlp & Htest & _ & _ & Hpts & Hdim & ->).
  set (c1 := {| coll_size := coll_size c; coll_distance := coll_distance c;
                coll_points := insert_points (coll_points c) pts |}).
  assert (Hc1 : w_qdrant (after_upserts s1 d c pts) !! d = Some c1)
    by (simpl; apply lookup_insert_eq).
  exists (after_upserts (after_upserts s1 d c pts) d c1 pts). split.
  - unfold process_pdf, try_except. rewrite process_job_try, Hfe, Hlp, Htest.
    unfold bind at 1. rewrite (ensure_existing _ d (length v) c1 Hc1).
    unfold bind, store_chunks. rewrite (store_chunks_from_run eq d 0 _ _ c1 pts Hc1 Hpts Hdim).
    done.
  - simpl. rewrite insert_insert_eq.
    rewrite (insert_points_twice _ pts 0 (embed_points_ids eq 0 _ pts Hpts)). done.
Qed.

Lemma reprocessing_keeps_store_witness :
  exists st2,
    process_pdf (fun _ => true) (fun _ => true) (fun _ => inr [page1]) embed_const
      (job_message "d" "/tmp/uploads/d.pdf")
      (snd (process_pdf (fun _ => true) (fun _ => true) (fun _ => inr [page1]) embed_const
              (job_message "d" "/tmp/uploads/d.pdf") store_with_d))
    = (inr Ack, st2) /\
    w_qdrant st2 = w_qdrant (snd (process_pdf (fun _ => true) (fun _ => true)
                                    (fun _ => inr [page1]) embed_const
                                    (job_message "d" "/tmp/uploads/d.pdf") store_with_d)).
Proof.
  assert (H : fst (process_pdf (fun _ => true) (fun _ => true) (fun _ => inr [page1])
                     embed_const (job_message "d" "/tmp/uploads/d.pdf") store_with_d)
              = inr Ack) by (vm_compute; reflexivity).
  apply (reprocessing_keeps_store _ _ _ _ _ _ store_with_d).
  rewrite <- H. apply surjective_pairing.
Defined.

Lemma store_first_mismatch eq name i ch rest st c :
  w_qdrant st !! name = Some c ->
  (forall e, eq (page_content ch) = inr e -> length e <> coll_size c) ->
  exists err, store_chunks_from eq (JStr name) i (ch :: rest) st = (inl err, st) /\
    (eq (page_content ch) = inl err \/ err = ServiceError "Wrong input: Vector dimension error").
Proof.
  intros Hc Hdim. cbn [store_chunks_from]. unfold bind at 1, lift.
  destruct (eq (page_content ch)) as [err|e] eqn:He.
  - exists err. split; [done|]. left. done.
  - unfold bind at 1, upsert. rewrite collection_key_str. unfold bind, lift. cbv beta iota.
    rewrite Hc. cbn [forallb].
    change (length (point_vector (mk_point i e ch))) with (length e).
    rewrite (proj2 (Nat.eqb_neq _ _) (Hdim e eq_refl)). cbn [andb].
    eexists. split; [reflexivity|]. right. done.
Qed.

(** A job for an existing collection whose dimensionality differs from
    every embedding the service answers, when the service raises no
    [FileNotFoundError], is rejected with requeue on every delivery and
    never changes the store (when the document has at least one
    chunk). *)
Theorem dimension_mismatch_requeued_forever (fe : string -> bool) (fd : Z -> bool)
    (lp : json -> result (list document)) (eq : text -> result (list Z))
    (d fp : string) (docs : list document) (c : collection) (st : wstate) (n : nat) :
  fe fp = true -> lp (JStr fp) = inr docs ->
  split_documents worker_splitter docs <> [] ->
  w_qdrant st !! d = Some c ->
  (forall t e, eq t = inr e -> length e <> coll_size c) ->
  (forall t e, eq t = inl e -> is_file_not_found e = false) ->
  deliver fe fd lp eq n (job_message d fp) st = (repeat (Nack true) n, st).
Proof.
  intros Hfe Hlp Hne Hc Hdim Hfnf. apply deliver_requeued_forever.
  pose proof (process_pdf_outcome fe fd lp eq (job_message d fp) st) as Hp.
  rewrite process_job_try, Hfe, Hlp in Hp.
  destruct (eq (txt "test")) as [e|v] eqn:Htest.
  - rewrite (Hfnf _ _ Htest) in Hp. exact Hp.
  - unfold bind at 1 in Hp. rewrite (ensure_existing st d (length v) c Hc) in Hp.
    unfold bind, store_chunks in Hp.
    destruct (split_documents worker_splitter docs) as [|ch rest]; [done|].
    destruct (store_first_mismatch eq d 0 ch rest st c Hc (Hdim _))
      as (err & Hs & Herr).
    rewrite Hs in Hp. replace (is_file_not_found err) with false in Hp; [exact Hp|].
    destruct Herr as [Herr| ->]; [symmetry; exact (Hfnf _ _ Herr)|done].
Qed.

Lemma dimension_mismatch_requeued_forever_witness :
  deliver (fun _ => true) (fun _ => true) (fun _ => inr [page1]) (fun _ => inr [1; 2; 3]) 3
    (job_message "d" "/tmp/uploads/d.pdf") store_with_d
  = (repeat (Nack true) 3, store_with_d).
Proof.
  apply (dimension_mismatch_requeued_forever _ _ _ _ _ _ [page1]
           {| coll_size := 2; coll_distance := Cosine; coll_points := ∅ |}).
  - reflexivity.
  - reflexivity.
  - vm_compute. discriminate.
  - reflexivity.
  - intros t e H. injection H as <-. simpl. lia.
  - intros t e H. discriminate.
Defined.

(** ** The chat handler: every outcome *)

Lemma string_app_assoc (a b c : string) : ((a ++ b) ++ c)%string = (a ++ b ++ c)%string.
Proof. induction a as [|x a IH]; [done|]. exact (f_equal (String x) IH). Qed.

Lemma join_str_snoc sep xs x : exists pre, join_str sep (xs ++ [x]) = (pre ++ x)%string.
Proof.
  induction xs as [|y xs IH]; [by exists ""%string|].
  destruct IH as [pre Hpre]. exists (y ++ sep ++ pre)%string.
  change ((y :: xs) ++ [x])%list with (y :: (xs ++ [x]))%list.
  assert (Hne : (xs ++ [x])%list <> []) by (destruct xs; discriminate).
  destruct (xs ++ [x])%list as [|z zs] eqn:E; [done|].
  change (join_str sep (y :: z :: zs)) with (y ++ sep ++ join_str sep (z :: zs))%string.
  rewrite Hpre, !string_app_assoc. done.
Qed.

Lemma chat_try_empty retrieve generate fresh req st :
  req_doc_id req = ""%string \/ req_query req = ""%string ->
  chat_try retrieve generate fresh req st = (inl (HTTPException 400 required_detail), st).
Proof.
  intros Hempty. unfold chat_try.
  assert (Hb : bool_decide (req_doc_id req = ""%string)
               || bool_decide (req_query req = ""%string) = true).
  { apply orb_true_iff. destruct Hempty as [H|H]; [left|right]; apply bool_decide_eq_true; done. }
  rewrite Hb. reflexivity.
Qed.

Lemma chat_try_absent retrieve generate fresh req st :
  req_doc_id req <> ""%string -> req_query req <> ""%string ->
  a_qdrant st !! req_doc_id req = None ->
  chat_try retrieve generate fresh req st
  = (inl (HTTPException 404 not_found_detail), with_calls st [CallGetCollection (req_doc_id req)]).
Proof.
  intros Hd Hq Hc. unfold chat_try.
  rewrite (bool_decide_eq_false_2 _ Hd), (bool_decide_eq_false_2 _ Hq).
  change (false || false) with false. cbv iota.
  unfold bind at 1, try_except, api_get_collection, bind at 1, log_call.
  assert (Hc' : a_qdrant (with_calls st [CallGetCollection (req_doc_id req)])
                !! req_doc_id req = None) by exact Hc.
  cbv beta. rewrite Hc'. reflexivity.
Qed.

Lemma chat_try_run retrieve generate fresh req st c :
  req_doc_id req <> ""%string -> req_query req <> ""%string ->
  a_qdrant st !! req_doc_id req = Some c ->
  let cid := conversation_id_of fresh req in
  let h := default [] (conversation_history st !! cid) in
  let st0 := with_calls st [CallGetCollection (req_doc_id req)] in
  chat_try retrieve generate fresh req st =
  match retrieve (a_qdrant st) (req_doc_id req) (req_query req) 5%nat with
  | inl e => (inl e, with_calls st0 [CallRetrieve (req_doc_id req) (req_query req) 5%nat])
  | inr docs =>
      let msgs := format_prompt (template_for h) (req_query req) (format_history h)
                    (context_of docs) in
      let st1 := with_calls st0 [CallRetrieve (req_doc_id req) (req_query req) 5%nat; CallLLM msgs] in
      match generate msgs with
      | inl e => (inl e, st1)
      | inr ans =>
          (inr {| answer := ans; resp_doc_id := req_doc_id req; resp_conversation_id := cid |},
           {| conversation_history :=
                <[cid := (h ++ [{| t_query := req_query req; t_response := ans |}])%list]>
                  (conversation_history st);
              a_qdrant := a_qdrant st; a_calls := a_calls st1 |})
      end
  end.
Proof.
  intros Hd Hq Hc cid h st0.
  rewrite (chat_try_valid retrieve generate fresh req st c Hd Hq Hc). cbv zeta.
  unfold bind. rewrite rag_chain_invoke_eq, a_qdrant_with_calls.
  destruct (retrieve _ _ _ _) as [e|docs]; [done|].
  destruct (generate _) as [e|ans]; done.
Qed.

Lemma chat_with_pdf_eq retrieve generate fresh req st :
  chat_with_pdf retrieve generate fresh req st =
  match chat_try retrieve generate fresh req st with
  | (inl e, s) =>
      (inl (if is_http_exception e then e
            else HTTPException 500 ("Chat failed: " ++ exn_str e)), s)
  | (inr r, s) => (inr r, s)
  end.
Proof.
  unfold chat_with_pdf, try_except.
  destruct (chat_try _ _ _ _ _) as [[e|r] s]; [|done].
  by destruct (is_http_exception e).
Qed.

Lemma chat_try_error retrieve generate fresh req st e s :
  chat_try retrieve generate fresh req st = (inl e, s) ->
  conversation_history s = conversation_history st /\ a_qdrant s = a_qdrant st /\
  (e = HTTPException 400 required_detail \/ e = HTTPException 404 not_found_detail \/
   retrieve (a_qdrant st) (req_doc_id req) (req_query req) 5%nat = inl e \/
   exists msgs, generate msgs = inl e).
Proof.
  intros H.
  destruct (decide (req_doc_id req = ""%string \/ req_query req = ""%string)) as [Hempty|Hne].
  { rewrite chat_try_empty in H by exact Hempty. injection H as <- <-. auto. }
  assert (Hd : req_doc_id req <> ""%string) by tauto.
  assert (Hq : req_query req <> ""%string) by tauto.
  destruct (a_qdrant st !! req_doc_id req) as [c|] eqn:Hc.
  - rewrite (chat_try_run retrieve generate fresh req st c Hd Hq Hc) in H.  cbv zeta in H.
    destruct (retrieve _ _ _ _) as [e'|docs] eqn:Hr.
    + injection H as <- <-. split; [done|]. split; [done|]. right; right; left. done.
    + destruct (generate _) as [e'|ans] eqn:Hg; [|discriminate].
      injection H as <- <-. split; [done|]. split; [done|]. right; right; right. eauto.
  - rewrite chat_try_absent in H by done. injection H as <- <-.
    split; [done|]. split; [done|]. right; left. done.
Qed.

Lemma chat_try_success retrieve generate fresh req st r s :
  chat_try retrieve generate fresh req st = (inr r, s) ->
  exists c docs,
    req_doc_id req <> ""%string /\ req_query req <> ""%string /\
    a_qdrant st !! req_doc_id req = Some c /\
    retrieve (a_qdrant st) (req_doc_id req) (req_query req) 5%nat = inr docs /\
    let cid := conversation_id_of fresh req in
    let h := default [] (conversation_history st !! cid) in
    let msgs := format_prompt (template_for h) (req_query req) (format_history h)
                  (context_of docs) in
    generate msgs = inr (answer r) /\
    r = {| answer := answer r; resp_doc_id := req_doc_id req; resp_conversation_id := cid |} /\
    s = {| conversation_history :=
             <[cid := (h ++ [{| t_query := req_query req; t_response := answer r |}])%list]>
               (conversation_history st);
           a_qdrant := a_qdrant st;
           a_calls := a_calls st ++ [CallGetCollection (req_doc_id req)]
                      ++ [CallRetrieve (req_doc_id req) (req_query req) 5%nat; CallLLM msgs] |}.
Proof.
  intros H.
  destruct (decide (req_doc_id req = ""%string \/ req_query req = ""%string)) as [Hempty|Hne].
  { rewrite chat_try_empty in H by exact Hempty. discriminate. }
  assert (Hd : req_doc_id req <> ""%string) by tauto.
  assert (Hq : req_query req <> ""%string) by tauto.
  destruct (a_qdrant st !! req_doc_id req) as [c|] eqn:Hc.
  2: { rewrite chat_try_absent in H by done. discriminate. }
  rewrite (chat_try_run retrieve generate fresh req st c Hd Hq Hc) in H.  cbv zeta in H.
  destruct (retrieve _ _ _ _) as [e'|docs] eqn:Hr; [discriminate|].
  destruct (generate _) as [e'|ans] eqn:Hg; [discriminate|].
  injection H as <- <-. exists c, docs.
  split; [done|]. split; [done|]. split; [done|]. split; [done|]. cbv zeta.
  split; [exact Hg|]. split; [done|].
  unfold with_calls. cbn [a_calls]. rewrite <- app_assoc. done.
Qed.

Lemma chat_with_pdf_calls retrieve generate fresh req st :
  a_calls (snd (chat_with_pdf retrieve generate fresh req st))
  = a_calls (snd (chat_try retrieve generate fresh req st)).
Proof.
  rewrite chat_with_pdf_eq. by destruct (chat_try _ _ _ _ _) as [[e|r] s].
Qed.

Lemma chat_calls_llm retrieve generate fresh req st c docs :
  req_doc_id req <> ""%string -> req_query req <> ""%string ->
  a_qdrant st !! req_doc_id req = Some c ->
  retrieve (a_qdrant st) (req_doc_id req) (req_query req) 5%nat = inr docs ->
  let h := default [] (conversation_history st !! conversation_id_of fresh req) in
  In (CallLLM (format_prompt (template_for h) (req_query req) (format_history h)
                 (context_of docs)))
     (a_calls (snd (chat_with_pdf retrieve generate fresh req st))).
Proof.
  intros Hd Hq Hc Hr h. rewrite chat_with_pdf_calls.
  rewrite (chat_try_run retrieve generate fresh req st c Hd Hq Hc). cbv zeta. rewrite Hr.
  destruct (generate _); cbn [snd a_calls with_calls];
    apply in_app_iff; right; right; left; reflexivity.
Qed.

Lemma format_history_snoc h t :
  exists pre, format_history (h ++ [t]) = (pre ++ render_turn t)%string.
Proof.
  unfold format_history, last3. rewrite length_app, skipn_app. simpl length.
  replace (length h + 1 - 3 - length h)%nat with 0%nat by lia.
  rewrite map_app. apply join_str_snoc.
Qed.

Lemma format_history_short h :
  (length h <= 3)%nat -> format_history h = join_str nl_s (map render_turn h).
Proof.
  intros Hl. unfold format_history, last3.
  replace (length h - 3)%nat with 0%nat by lia. done.
Qed.

Lemma acked_collection_exists fe fd lp eq d fp st st' :
  process_pdf fe fd lp eq (job_message d fp) st = (inr Ack, st') ->
  is_Some (w_qdrant st' !! d).
Proof.
  intros Hack.
  destruct (process_job_ack fe fd lp eq d fp st st' Hack)
    as (_ & docs & v & st1 & c & pts & _ & _ & _ & _ & _ & _ & ->).
  unfold after_upserts. cbn [w_qdrant]. rewrite lookup_insert_eq. eauto.
Qed.

Lemma chat_success_state
    (retrieve : gmap string collection -> string -> string -> nat -> result (list document))
    (generate : list message -> result string)
    (fresh : string) (req : chat_request) (st : astate)
    (resp : chat_response) (st' : astate) :
  chat_with_pdf retrieve generate fresh req st = (inr resp, st') ->
  resp_doc_id resp = req_doc_id req /\
  resp_conversation_id resp = conversation_id_of fresh req /\
  conversation_history st' =
    <[conversation_id_of fresh req :=
        (default [] (conversation_history st !! conversation_id_of fresh req)
         ++ [{| t_query := req_query req; t_response := answer resp |}])%list]>
      (conversation_history st) /\
  a_qdrant st' = a_qdrant st.
Proof.
  intros H. rewrite chat_with_pdf_eq in H.
  destruct (chat_try retrieve generate fresh req st) as [[e|r] s] eqn:E; [discriminate|].
  injection H as <- <-.
  destruct (chat_try_success _ _ _ _ _ _ _ E) as (c & docs & _ & _ & _ & _ & Hs).
  cbv zeta in Hs. destruct Hs as (_ & Hr & Hs).
  split; [rewrite Hr; done|]. split; [rewrite Hr; done|].
  rewrite Hs. done.
Qed.

(** A successful chat answers for the requested document under the
    request's conversation id (or the fresh one when it is absent or
    empty), appends exactly the new turn to that conversation's history
    and changes no other conversation and no collection. *)
Theorem chat_success_records_turn
    (retrieve : gmap string collection -> string -> string -> nat -> result (list document))
    (generate : list message -> result string)
    (fresh : string) (req : chat_request) (st : astate)
    (resp : chat_response) (st' : astate) :
  chat_with_pdf retrieve generate fresh req st = (inr resp, st') ->
  resp_doc_id resp = req_doc_id req /\
  resp_conversation_id resp = conversation_id_of fresh req /\
  conversation_history st' =
    <[conversation_id_of fresh req :=
        (default [] (conversation_history st !! conversation_id_of fresh req)
         ++ [{| t_query := req_query req; t_response := answer resp |}])%list]>
      (conversation_history st) /\
  a_qdrant st' = a_qdrant st.
Proof.
  exact (chat_success_state retrieve generate fresh req st resp st').
Qed.

Lemma chat_success_records_turn_witness :
  let resp := {| answer := "ok"; resp_doc_id := "d"; resp_conversation_id := "c1" |} in
  resp_doc_id resp = req_doc_id req_c1 /\
  resp_conversation_id resp = conversation_id_of "u" req_c1 /\
  conversation_history (snd (chat_with_pdf retrieve_nothing generate_ok "u" req_c1 astate_d)) =
    <[conversation_id_of "u" req_c1 :=
        (default [] (conversation_history astate_d !! conversation_id_of "u" req_c1)
         ++ [{| t_query := req_query req_c1; t_response := answer resp |}])%list]>
      (conversation_history astate_d) /\
  a_qdrant (snd (chat_with_pdf retrieve_nothing generate_ok "u" req_c1 astate_d))
  = a_qdrant astate_d.
Proof.
  apply (chat_success_records_turn retrieve_nothing generate_ok "u" req_c1 astate_d).
  vm_compute. reflexivity.
Defined.

(** Whatever error the chat handler answers with, the conversation
    histories and the collections are as they were before the request. *)
Theorem chat_failure_keeps_state
    (retrieve : gmap string collection -> string -> string -> nat -> result (list document))
    (generate : list message -> result string)
    (fresh : string) (req : chat_request) (st : astate) (e : exn) (st' : astate) :
  chat_with_pdf retrieve generate fresh req st = (inl e, st') ->
  conversation_history st' = conversation_history st /\ a_qdrant st' = a_qdrant st.
Proof.
  intros H. rewrite chat_with_pdf_eq in H.
  destruct (chat_try retrieve generate fresh req st) as [[e0|r] s] eqn:E; [|discriminate].
  injection H as _ <-.
  destruct (chat_try_error _ _ _ _ _ _ _ E) as (Hh & Hq & _). done.
Qed.

Lemma chat_failure_keeps_state_witness :
  conversation_history (snd (chat_with_pdf retrieve_nothing generate_down "u" req_c1 astate_d))
  = conversation_history astate_d /\
  a_qdrant (snd (chat_with_pdf retrieve_nothing generate_down "u" req_c1 astate_d))
  = a_qdrant astate_d.
Proof.
  apply (chat_failure_keeps_state retrieve_nothing generate_down "u" req_c1 astate_d
           (HTTPException 500 ("Chat failed: " ++ "503 Service Unavailable"))).
  vm_compute. reflexivity.
Defined.

(** Every error of the chat handler is an HTTP error: 400 for an empty
    field, 404 for a missing collection, 500 "Chat failed: ..." wrapping
    any other error, or an HTTP error the retriever or the model raised
    themselves, passed through unchanged. *)
Theorem chat_error_codes
    (retrieve : gmap string collection -> string -> string -> nat -> result (list document))
    (generate : list message -> result string)
    (fresh : string) (req : chat_request) (st : astate) (e : exn) (st' : astate) :
  chat_with_pdf retrieve generate fresh req st = (inl e, st') ->
  e = HTTPException 400 required_detail \/
  e = HTTPException 404 not_found_detail \/
  (exists e0, is_http_exception e0 = false /\
              e = HTTPException 500 ("Chat failed: " ++ exn_str e0)) \/
  (is_http_exception e = true /\
   (retrieve (a_qdrant st) (req_doc_id req) (req_query req) 5%nat = inl e \/
    exists msgs, generate msgs = inl e)).
Proof.
  intros H. rewrite chat_with_pdf_eq in H.
  destruct (chat_try retrieve generate fresh req st) as [[e0|r] s] eqn:E; [|discriminate].
  injection H as He _.
  destruct (chat_try_error _ _ _ _ _ _ _ E) as (_ & _ & Hc).
  destruct (is_http_exception e0) eqn:Hh.
  - subst e0. destruct Hc as [->|[->|Hc]]; [left; done|right; left; done|].
    right; right; right. split; [exact Hh|exact Hc].
  - right; right; left. exists e0. split; [exact Hh|]. symmetry. exact He.
Qed.

Lemma chat_error_codes_witness :
  let e := HTTPException 500 ("Chat failed: " ++ "503 Service Unavailable") in
  e = HTTPException 400 required_detail \/
  e = HTTPException 404 not_found_detail \/
  (exists e0, is_http_exception e0 = false /\
              e = HTTPException 500 ("Chat failed: " ++ exn_str e0)) \/
  (is_http_exception e = true /\
   (retrieve_nothing (a_qdrant astate_d) (req_doc_id req_c1) (req_query req_c1) 5%nat = inl e \/
    exists msgs, generate_down msgs = inl e)).
Proof.
  apply (chat_error_codes retrieve_nothing generate_down "u" req_c1 astate_d _
           (snd (chat_with_pdf retrieve_nothing generate_down "u" req_c1 astate_d))).
  vm_compute. reflexivity.
Defined.

(** Once the worker has acknowledged a document's job, a chat about that
    document against the same store is never answered 404 (provided the
    retriever and the model do not raise HTTP errors of their own). *)
Theorem acked_document_not_404 (fe : string -> bool) (fd : Z -> bool)
    (lp : json -> result (list document)) (eq : text -> result (list Z))
    (d fp : string) (st st' : wstate)
    (retrieve : gmap string collection -> string -> string -> nat -> result (list document))
    (generate : list message -> result string)
    (fresh : string) (req : chat_request) (ast : astate) (detail : string) :
  process_pdf fe fd lp eq (job_message d fp) st = (inr Ack, st') ->
  req_doc_id req = d -> a_qdrant ast = w_qdrant st' ->
  (forall e, retrieve (a_qdrant ast) d (req_query req) 5%nat = inl e ->
             is_http_exception e = false) ->
  (forall msgs e, generate msgs = inl e -> is_http_exception e = false) ->
  fst (chat_with_pdf retrieve generate fresh req ast) <> inl (HTTPException 404 detail).
Proof.
  intros Hack Hreq Hq Hr Hg Hf. subst d.
  assert (Hsome : is_Some (a_qdrant ast !! req_doc_id req)).
  { rewrite Hq. exact (acked_collection_exists _ _ _ _ _ _ _ _ Hack). }
  rewrite chat_with_pdf_eq in Hf.
  destruct (chat_try retrieve generate fresh req ast) as [[e0|r] s] eqn:Et;
    cbn [fst] in Hf; [|discriminate].
  injection Hf as He.
  destruct (decide (req_doc_id req = ""%string \/ req_query req = ""%string)) as [Hempty|Hne].
  { rewrite chat_try_empty in Et by exact Hempty. injection Et as <- _.
    cbn in He. congruence. }
  assert (Hd : req_doc_id req <> ""%string) by tauto.
  assert (Hq' : req_query req <> ""%string) by tauto.
  destruct Hsome as [c Hc].
  rewrite (chat_try_run retrieve generate fresh req ast c Hd Hq' Hc) in Et. cbv zeta in Et.
  destruct (retrieve _ _ _ _) as [e1|docs] eqn:Hre.
  - injection Et as <- _. rewrite (Hr e1 eq_refl) in He. congruence.
  - destruct (generate _) as [e1|ans] eqn:Hge; [|discriminate].
    injection Et as <- _. rewrite (Hg _ _ Hge) in He. congruence.
Qed.

Lemma acked_document_not_404_witness :
  fst (chat_with_pdf retrieve_nothing generate_down "u"
         {| req_doc_id := "d"; req_query := "q"; req_conversation_id := None |}
         {| conversation_history := ∅;
            a_qdrant := w_qdrant (snd (process_pdf (fun _ => true) (fun _ => true)
                          (fun _ => inr [page1]) embed_const
                          (job_message "d" "/tmp/uploads/d.pdf") store_with_d));
            a_calls := [] |})
  <> inl (HTTPException 404 not_found_detail).
Proof.
  apply (acked_document_not_404 (fun _ => true) (fun _ => true) (fun _ => inr [page1])
           embed_const "d" "/tmp/uploads/d.pdf" store_with_d
           (snd (process_pdf (fun _ => true) (fun _ => true) (fun _ => inr [page1]) embed_const
                   (job_message "d" "/tmp/uploads/d.pdf") store_with_d))).
  - vm_compute. reflexivity.
  - reflexivity.
  - reflexivity.
  - intros e H. discriminate.
  - intros msgs e H. injection H as <-. reflexivity.
Defined.

(** After a successful chat, the next request naming the same
    conversation sends the model a prompt with a history section that
    ends with the previous question and answer. *)
Theorem next_chat_sees_previous_turn
    (retrieve : gmap string collection -> string -> string -> nat -> result (list document))
    (generate : list message -> result string)
    (fresh1 fresh2 : string) (req1 req2 : chat_request) (st : astate)
    (resp1 : chat_response) (st1 : astate) (docs : list document) :
  chat_with_pdf retrieve generate fresh1 req1 st = (inr resp1, st1) ->
  fresh1 <> ""%string ->
  req_conversation_id req2 = Some (resp_conversation_id resp1) ->
  req_doc_id req2 <> ""%string -> req_query req2 <> ""%string ->
  is_Some (a_qdrant st1 !! req_doc_id req2) ->
  retrieve (a_qdrant st1) (req_doc_id req2) (req_query req2) 5%nat = inr docs ->
  exists earlier,
    In (CallLLM (format_prompt WithHistory (req_query req2)
          (earlier ++ render_turn {| t_query := req_query req1; t_response := answer resp1 |})
          (context_of docs)))
       (a_calls (snd (chat_with_pdf retrieve generate fresh2 req2 st1))).
Proof.
  intros H1 Hf1 Hcid Hd Hq [c Hc] Hr.
  destruct (chat_success_state retrieve generate fresh1 req1 st resp1 st1 H1)
    as (_ & Hcid1 & Hhist & _).
  assert (Hcid2 : conversation_id_of fresh2 req2 = resp_conversation_id resp1).
  { unfold conversation_id_of. rewrite Hcid.
    rewrite bool_decide_eq_false_2; [done|].
    rewrite Hcid1. unfold conversation_id_of.
    destruct (req_conversation_id req1) as [c1|]; [|exact Hf1].
    destruct (bool_decide (c1 = ""%string)) eqn:Hb; [exact Hf1|].
    intros ->. rewrite bool_decide_eq_true_2 in Hb; done. }
  pose proof (chat_calls_llm retrieve generate fresh2 req2 st1 c docs Hd Hq Hc Hr) as Hin.
  cbv zeta in Hin. rewrite Hcid2, Hhist, Hcid1, lookup_insert_eq in Hin. change (default [] (Some ?x)) with x in Hin.
  destruct (format_history_snoc
              (default [] (conversation_history st !! conversation_id_of fresh1 req1))
              {| t_query := req_query req1; t_response := answer resp1 |}) as [pre Hpre].
  exists pre. rewrite Hpre in Hin.
  replace WithHistory with
    (template_for (default [] (conversation_history st !! conversation_id_of fresh1 req1)
                   ++ [{| t_query := req_query req1; t_response := answer resp1 |}])%list);
    [exact Hin|].
  by destruct (default [] _).
Qed.

Lemma next_chat_sees_previous_turn_witness :
  exists earlier,
    In (CallLLM (format_prompt WithHistory "q6"
          (earlier ++ render_turn {| t_query := "q5"; t_response := "ok" |}) (context_of [])))
       (a_calls (snd (chat_with_pdf retrieve_nothing generate_ok "v"
          {| req_doc_id := "d"; req_query := "q6"; req_conversation_id := Some "c1" |}
          (snd (chat_with_pdf retrieve_nothing generate_ok "u" req_c1 astate_d))))).
Proof.
  apply (next_chat_sees_previous_turn retrieve_nothing generate_ok "u" "v" req_c1
           {| req_doc_id := "d"; req_query := "q6"; req_conversation_id := Some "c1" |}
           astate_d {| answer := "ok"; resp_doc_id := "d"; resp_conversation_id := "c1" |}).
  - vm_compute. reflexivity.
  - discriminate.
  - reflexivity.
  - discriminate.
  - discriminate.
  - vm_compute. eexists. reflexivity.
  - reflexivity.
Defined.

(** With at most three stored turns, the prompt carries the whole
    history, oldest first; for a new conversation the system message is
    the instructions and the retrieved context only, with no history
    section. *)
Theorem short_history_in_prompt
    (retrieve : gmap string collection -> string -> string -> nat -> result (list document))
    (generate : list message -> result string)
    (fresh : string) (req : chat_request) (st : astate) (h : list turn)
    (docs : list document) :
  req_doc_id req <> ""%string -> req_query req <> ""%string ->
  is_Some (a_qdrant st !! req_doc_id req) ->
  default [] (conversation_history st !! conversation_id_of fresh req) = h ->
  (length h <= 3)%nat ->
  retrieve (a_qdrant st) (req_doc_id req) (req_query req) 5%nat = inr docs ->
  In (CallLLM (format_prompt (template_for h) (req_query req)
                 (join_str nl_s (map render_turn h)) (context_of docs)))
     (a_calls (snd (chat_with_pdf retrieve generate fresh req st))) /\
  (h = [] ->
   In (CallLLM [(System, system_intro ++ nl_s ++ nl_s ++ context_of docs)%string;
                (Human, req_query req)])
      (a_calls (snd (chat_with_pdf retrieve generate fresh req st)))).
Proof.
  intros Hd Hq [c Hc] Hh Hl Hr.
  pose proof (chat_calls_llm retrieve generate fresh req st c docs Hd Hq Hc Hr) as Hin.
  cbv zeta in Hin. rewrite Hh, (format_history_short h Hl) in Hin.
  split; [exact Hin|]. intros ->. exact Hin.
Qed.

Lemma short_history_in_prompt_witness :
  let st := {| conversation_history := {[ "c2" := [mk_turn "q1" "r1"; mk_turn "q2" "r2"] ]};
               a_qdrant := w_qdrant store_with_d; a_calls := [] |} in
  let req := {| req_doc_id := "d"; req_query := "q3"; req_conversation_id := Some "c2" |} in
  let h := [mk_turn "q1" "r1"; mk_turn "q2" "r2"] in
  (In (CallLLM (format_prompt (template_for h) (req_query req)
                  (join_str nl_s (map render_turn h)) (context_of [])))
      (a_calls (snd (chat_with_pdf retrieve_nothing generate_ok "u" req st))) /\
   (h = [] ->
    In (CallLLM [(System, system_intro ++ nl_s ++ nl_s ++ context_of [])%string;
                 (Human, req_query req)])
       (a_calls (snd (chat_with_pdf retrieve_nothing generate_ok "u" req st))))) /\
  template_for h = WithHistory /\
  join_str nl_s (map render_turn h)
  = ("Human: q1" ++ nl_s ++ "Assistant: r1" ++ nl_s ++
     "Human: q2" ++ nl_s ++ "Assistant: r2")%string.
Proof.
  split; [|split; reflexivity].
  apply (short_history_in_prompt retrieve_nothing generate_ok "u"
           {| req_doc_id := "d"; req_query := "q3"; req_conversation_id := Some "c2" |}
           {| conversation_history := {[ "c2" := [mk_turn "q1" "r1"; mk_turn "q2" "r2"] ]};
              a_qdrant := w_qdrant store_with_d; a_calls := [] |}).
  - discriminate.
  - discriminate.
  - vm_compute. eexists. reflexivity.
  - reflexivity.
  - simpl. lia.
  - reflexivity.
Defined.

(** ** The status events: one printable line each *)


Ltac lit_printable :=
  apply List.Forall_forall; intros ? Hx; simpl in Hx;
  repeat (destruct Hx as [<- | Hx]; [unfold printable; vm_compute; lia|]); destruct Hx.

Lemma land15_range x : 0 <= Z.land x 15 <= 15.
Proof.
  assert (E : Z.land x 15 = x mod 16) by (apply (Z.land_ones x 4); lia).
  rewrite E. pose proof (Z.mod_pos_bound x 16 ltac:(lia)). lia.
Qed.

Lemma char_of_printable n : 32 <= n <= 126 -> printable (char_of n).
Proof.
  intros Hn. unfold printable, char_of.
  rewrite nat_ascii_embedding by lia. lia.
Qed.

Lemma hex_digit_printable n : 0 <= n <= 15 -> printable (hex_digit n).
Proof.
  intros Hn. unfold hex_digit. destruct (n <? 10) eqn:E; apply char_of_printable.
  - apply Z.ltb_lt in E. lia.
  - apply Z.ltb_ge in E. lia.
Qed.

Lemma u_escape_printable n : Forall printable (u_escape n).
Proof.
  unfold u_escape. constructor; [unfold printable, bs; vm_compute; lia|].
  constructor; [unfold printable; vm_compute; lia|].
  repeat (constructor; [apply hex_digit_printable, land15_range|]). constructor.
Qed.

Lemma json_escape_char_printable c : Forall printable (json_escape_char c).
Proof.
  unfold json_escape_char.
  destruct (c =? 92); [lit_printable|].
  destruct (c =? 34); [lit_printable|].
  destruct (c =? 8); [lit_printable|].
  destruct (c =? 12); [lit_printable|].
  destruct (c =? 10); [lit_printable|].
  destruct (c =? 13); [lit_printable|].
  destruct (c =? 9); [lit_printable|].
  destruct ((32 <=? c) && (c <=? 126)) eqn:E.
  - apply andb_true_iff in E as [E1 E2]. apply Z.leb_le in E1, E2.
    constructor; [apply char_of_printable; lia|constructor].
  - destruct (c <? 65536); [apply u_escape_printable|].
    apply Forall_app; split; apply u_escape_printable.
Qed.

Lemma encode_printable s : Forall printable (encode_basestring_ascii s).
Proof.
  unfold encode_basestring_ascii. constructor; [unfold printable, dq; vm_compute; lia|].
  apply Forall_app; split; [|lit_printable].
  induction s as [|c s IH]; [constructor|].
  simpl. apply Forall_app; split; [apply json_escape_char_printable|exact IH].
Qed.

(** Every status event is the line ["data: " ++ payload] followed by an
    empty line, whatever the document id: the payload consists of
    printable ASCII characters only, so it holds no line break (the
    id's non-ASCII and control characters are escaped). *)
Theorem status_event_framing (status : doc_status) (doc_id : pystr) :
  exists payload,
    sse_event status doc_id = txt "data: " ++ payload ++ [nl; nl] /\
    Forall printable payload /\ ~ In nl payload.
Proof.
  set (payload := txt "{" ++ encode_basestring_ascii (pystr_of "status") ++ txt ": "
    ++ encode_basestring_ascii (pystr_of (status_str status)) ++ txt ", "
    ++ encode_basestring_ascii (pystr_of "doc_id") ++ txt ": "
    ++ encode_basestring_ascii doc_id ++ txt "}").
  assert (Hp : Forall printable payload).
  { unfold payload.
    repeat (apply Forall_app; split); try apply encode_printable; lit_printable. }
  exists payload. split; [|split; [exact Hp|]].
  - unfold sse_event, payload. rewrite <- !app_assoc. reflexivity.
  - intros Hin. rewrite List.Forall_forall in Hp. specialize (Hp nl Hin).
    unfold printable, nl in Hp. rewrite nat_ascii_embedding in Hp by lia. lia.
Qed.

(** ** From the upload to the worker *)

Lemma store_chunks_from_error eq name i chunks st e s :
  store_chunks_from eq (JStr name) i chunks st = (inl e, s) ->
  (exists t, eq t = inl e) \/ exists m, e = ServiceError m.
Proof.
  revert i st. induction chunks as [|ch rest IH]; intros i st H; [discriminate|].
  cbn [store_chunks_from] in H. unfold bind at 1, lift in H.
  destruct (eq (page_content ch)) as [err|v] eqn:He.
  - injection H as <- _. left. eauto.
  - unfold bind at 1, upsert in H. rewrite collection_key_str in H. unfold bind, lift in H. cbv beta iota in H.
    destruct (w_qdrant st !! name) as [c|].
    + destruct (forallb _ _).
      * exact (IH _ _ H).
      * injection H as <- _. right. eauto.
    + injection H as <- _. right. eauto.
Qed.

Lemma process_job_not_dropped fe fd lp eq d fp st :
  fe fp = true ->
  (forall j e, lp j = inl e -> is_file_not_found e = false) ->
  (forall t e, eq t = inl e -> is_file_not_found e = false) ->
  fst (process_pdf fe fd lp eq (job_message d fp) st) <> inr (Nack false).
Proof.
  intros Hfe Hlp Heq.
  pose proof (process_pdf_outcome fe fd lp eq (job_message d fp) st) as Hp.
  rewrite process_job_try, Hfe in Hp.
  destruct (lp (JStr fp)) as [e|docs] eqn:Hl.
  { rewrite Hp, (Hlp _ _ Hl). discriminate. }
  destruct (eq (txt "test")) as [e|v] eqn:He.
  { rewrite Hp, (Heq _ _ He). discriminate. }
  destruct (ensure_result st d (length v)) as (c & st1 & Hens & _).
  unfold bind at 1 in Hp. rewrite Hens in Hp. unfold bind, store_chunks in Hp.
  destruct (store_chunks_from eq (JStr d) 0 (split_documents worker_splitter docs) st1)
    as [[e|[]] s] eqn:Hs.
  - rewrite Hp.
    destruct (store_chunks_from_error _ _ _ _ _ _ _ Hs) as [[t Ht]|[m ->]];
      [rewrite (Heq _ _ Ht)|]; discriminate.
  - rewrite Hp. discriminate.
Qed.

(** The job an accepted upload publishes names a file the upload wrote;
    a worker that sees the same files therefore never rejects it as
    missing (it is acknowledged or retried), unless the loader or the
    embedding service themselves raise [FileNotFoundError]. *)
Theorem uploaded_job_never_dropped (connect : result unit) (fresh : string)
    (content_type : option string) (content : list Byte.byte) (ust ust' : ustate)
    (doc_id : string) (fd : Z -> bool) (lp : json -> result (list document))
    (eq : text -> result (list Z)) (st : wstate) :
  upload_pdf connect fresh content_type content ust = (inr doc_id, ust') ->
  (forall j e, lp j = inl e -> is_file_not_found e = false) ->
  (forall t e, eq t = inl e -> is_file_not_found e = false) ->
  exists b, u_queue ust' = u_queue ust ++ [b] /\
    fst (process_pdf (fun p => bool_decide (is_Some (u_files ust' !! p))) fd lp eq b st)
    <> inr (Nack false).
Proof.
  intros Hup Hlp Heq.
  unfold upload_pdf, upload_try, try_except in Hup.
  destruct (not_pdf content_type); [discriminate|].
  destruct connect as [e|[]].
  { cbn in Hup. destruct (is_http_exception e); discriminate. }
  cbn in Hup. injection Hup as <- <-.
  exists (job_message fresh (upload_file_path fresh)). split; [done|].
  apply process_job_not_dropped; [|exact Hlp|exact Heq].
  apply bool_decide_eq_true_2. cbn [u_files]. rewrite lookup_insert_eq. eauto.
Qed.

Lemma uploaded_job_never_dropped_witness :
  exists b,
    u_queue (snd (upload_pdf (inr tt) "u" (Some "application/pdf"%string) []
                   {| u_files := ∅; u_queue := [] |}))
    = u_queue {| u_files := ∅; u_queue := [] |} ++ [b] /\
    fst (process_pdf
           (fun p => bool_decide (is_Some (u_files (snd (upload_pdf (inr tt) "u"
              (Some "application/pdf"%string) [] {| u_files := ∅; u_queue := [] |})) !! p)))
           (fun _ => true) (fun _ => inr [page1]) embed_const b store_with_d)
    <> inr (Nack false).
Proof.
  apply (uploaded_job_never_dropped (inr tt) "u" (Some "application/pdf"%string) []
           {| u_files := ∅; u_queue := [] |} _ "u").
  - vm_compute. reflexivity.
  - intros j e H. discriminate.
  - intros t e H. discriminate.
Defined.

(** ** The chunks: stripped, non-empty, one per short page *)









Section ChunkShape.
Variable cfg : splitter.



End ChunkShape.

Lemma is_prefix_app p t : is_prefix p t = true -> exists rest, t = p ++ rest.
Proof.
  revert t. induction p as [|a p IH]; intros t H; [by exists t|].
  destruct t as [|b t]; [discriminate|]. cbn [is_prefix] in H.
  destruct (ascii_dec a b) as [->|]; [|discriminate].
  destruct (IH t H) as [rest ->]. by exists rest.
Qed.

Lemma split_on_go_skip sep p rest cur :
  split_on_go sep (p ++ rest) (length p) cur = split_on_go sep rest O cur.
Proof. induction p as [|a p IH]; [done|]. exact IH. Qed.

Lemma split_on_go_nonempty sep t skip cur : split_on_go sep t skip cur <> [].
Proof.
  revert skip cur. induction t as [|c t IH]; intros [|k] cur; cbn; try done.
  destruct (is_prefix sep (c :: t)); [done|apply IH].
Qed.

Lemma join_cons sep x xs : xs <> [] -> join sep (x :: xs) = x ++ sep ++ join sep xs.
Proof. destruct xs; done. Qed.

Lemma split_on_go_join sep n t cur :
  sep <> [] -> (length t <= n)%nat ->
  join sep (split_on_go sep t O cur) = rev cur ++ t.
Proof.
  intros Hsep. revert t cur. induction n as [|n IHn]; intros t cur Hl.
  - destruct t; [|cbn in Hl; lia]. cbn. by rewrite app_nil_r.
  - destruct t as [|c t']; [cbn; by rewrite app_nil_r|].
    cbn [split_on_go]. destruct (is_prefix sep (c :: t')) eqn:Hp.
    + destruct (is_prefix_app _ _ Hp) as [rest Hrest].
      destruct sep as [|a sep']; [done|].
      injection Hrest as <- ->. cbn [length pred].
      rewrite split_on_go_skip, join_cons by apply split_on_go_nonempty.
      rewrite IHn; [|cbn [length] in Hl; rewrite length_app in Hl; lia].
      cbn [rev]. done.
    + rewrite IHn; [|cbn in Hl; lia]. cbn [rev]. rewrite <- app_assoc. done.
Qed.

Lemma concat_sep_pieces sep p0 ps :
  concat (p0 :: map (fun p => sep ++ p) ps) = join sep (p0 :: ps).
Proof.
  revert p0. induction ps as [|p1 ps IH]; intros p0.
  - cbn. by rewrite app_nil_r.
  - rewrite join_cons by done. rewrite <- IH. cbn [concat map].
    rewrite <- !app_assoc. done.
Qed.


Lemma concat_filter_nonempty (l : list text) :
  concat (filter (fun s : text => bool_decide (s <> [])) l) = concat l.
Proof.
  induction l as [|s l IH]; [done|]. rewrite filter_cons.
  destruct (decide _) as [H|H].
  - cbn [concat]. by rewrite IH.
  - destruct s as [|a s]; [exact IH|]. exfalso. apply H.
    apply bool_decide_pack. discriminate.
Qed.

Lemma split_regex_concat sep t : concat (split_text_with_regex sep t true) = t.
Proof.
  destruct sep as [|a sep'].
  - induction t as [|c t IH]; [done|]. cbn [split_text_with_regex map concat app].
    cbn [split_text_with_regex] in IH. by rewrite IH.
  - unfold split_text_with_regex. cbv beta iota zeta.
    rewrite concat_filter_nonempty. unfold split_on.
    pose proof (split_on_go_nonempty (a :: sep') t O []) as Hne.
    destruct (split_on_go (a :: sep') t O []) as [|p0 ps] eqn:E; [done|].
    rewrite concat_sep_pieces, <- E.
    apply (split_on_go_join _ (length t)); [discriminate|lia].
Qed.

Lemma in_concat_length (s : text) l : In s l -> (length s <= length (concat l))%nat.
Proof.
  induction l as [|x l IH]; [done|]. intros [<-|Hin]; cbn [concat]; rewrite length_app;
    [lia|specialize (IH Hin); lia].
Qed.

Lemma sum_len_concat l : sum_len l = len (concat l).
Proof.
  induction l as [|x l IH]; [done|]. cbn [sum_len concat]. rewrite IH.
  unfold len. rewrite length_app. lia.
Qed.

Lemma join_nil_concat l : join [] l = concat l.
Proof.
  induction l as [|x l IH]; [done|]. destruct l as [|y l].
  - cbn. by rewrite app_nil_r.
  - rewrite join_cons by done. rewrite IH. done.
Qed.

Lemma merge_go_fits size overlap splits docs cur total :
  total = sum_len cur -> sum_len cur + sum_len splits <= size ->
  merge_go size overlap [] splits docs cur total = docs ++ join_docs [] (cur ++ splits).
Proof.
  revert docs cur total.
  induction splits as [|d ds IH]; intros docs cur total Ht Hs.
  - cbn [merge_go]. by rewrite app_nil_r.
  - cbn [merge_go]. rewrite ?len_nil, ?if_same.
    cbn [sum_len] in Hs. pose proof (sum_len_nonneg ds).
    replace (total + len d + 0 >? size) with false
      by (symmetry; rewrite Z.gtb_ltb; apply Z.ltb_ge; lia).
    unfold push. cbv zeta. rewrite ?len_nil, ?if_same.
    rewrite IH; [by rewrite <- app_assoc| |].
    + rewrite sum_len_app. lia.
    + rewrite sum_len_app. lia.
Qed.

Lemma split_level_short cfg sep recur t :
  keep_separator cfg = true -> len t < chunk_size cfg ->
  split_level cfg sep recur t = join_docs [] [t].
Proof.
  intros Hkeep Hlen. unfold split_level. rewrite Hkeep. cbv zeta.
  pose proof (split_regex_concat sep t) as Hcat.
  assert (Hgood : forall s, In s (split_text_with_regex sep t true) -> len s < chunk_size cfg).
  { intros s Hs. apply in_concat_length in Hs. rewrite Hcat in Hs. unfold len in *. lia. }
  match goal with
  | |- context [fold_left ?f ?l ?i] =>
      assert (Hf : forall l' fin g, (forall s, In s l' -> len s < chunk_size cfg) ->
                   fold_left f l' (fin, g) = (fin, g ++ l'))
  end.
  { induction l' as [|s ss IH]; intros fin g Hl; [by rewrite app_nil_r|].
    cbn [fold_left]. rewrite (proj2 (Z.ltb_lt _ _) (Hl s (or_introl eq_refl))).
    rewrite IH by (intros; apply Hl; right; done). by rewrite <- app_assoc. }
  rewrite Hf by exact Hgood. cbn [app].
  destruct (split_text_with_regex sep t true) as [|s0 ss] eqn:Es.
  - rewrite <- Hcat. reflexivity.
  - unfold merge_splits.
    rewrite merge_go_fits; [|done|rewrite (sum_len_concat (s0 :: ss)), Hcat; cbn [sum_len]; lia].
    cbn [app]. unfold join_docs. rewrite join_nil_concat, Hcat. done.
Qed.

Lemma split_text_rec_short cfg last seps t :
  keep_separator cfg = true -> len t < chunk_size cfg ->
  split_text_rec cfg last seps t = join_docs [] [t].
Proof.
  intros Hkeep Hlen. induction seps as [|s rest IH]; cbn [split_text_rec];
    [by apply split_level_short|].
  destruct s as [|a s']; [by apply split_level_short|].
  destruct (contains (a :: s') t); [by apply split_level_short|exact IH].
Qed.


(** A page of fewer than 800 characters gives exactly one chunk, its
    text stripped of surrounding whitespace, or none when it is blank. *)
Theorem short_page_single_chunk (d : document) :
  (length (page_content d) < 800)%nat ->
  split_documents worker_splitter [d] =
  match py_strip (page_content d) with
  | [] => []
  | c => [{| page_content := c; doc_metadata := doc_metadata d |}]
  end.
Proof.
  intros Hl. unfold split_documents. cbn [flat_map]. rewrite app_nil_r.
  unfold split_text. rewrite split_text_rec_short; [|done|unfold len; cbn; lia].
  unfold join_docs. cbn [join]. by destruct (py_strip _).
Qed.

Lemma short_page_single_chunk_witness :
  split_documents worker_splitter [blank_page] = [] /\
  split_documents worker_splitter [padded_page]
  = [{| page_content := txt "Hi"; doc_metadata := doc_metadata page1 |}].
Proof.
  split.
  - rewrite (short_page_single_chunk blank_page); [|vm_compute; lia].
    vm_compute. reflexivity.
  - rewrite (short_page_single_chunk padded_page); [|vm_compute; lia].
    vm_compute. reflexivity.
Defined.

(** ** Partial failure and the order of deliveries *)

Lemma store_chunks_from_app eq name i pre rest st c pts :
  w_qdrant st !! name = Some c ->
  embed_points eq i pre = Some pts ->
  Forall (fun p => length (point_vector p) = coll_size c) pts ->
  store_chunks_from eq (JStr name) i (pre ++ rest) st
  = store_chunks_from eq (JStr name) (i + length pre) rest (after_upserts st name c pts).
Proof.
  revert i st c pts. induction pre as [|ch pre IH]; intros i st c pts Hc Hpts Hdim.
  - injection Hpts as <-. destruct st as [q l], c as [sz ds ps]. unfold after_upserts.
    simpl in *. rewrite app_nil_r, insert_id, Nat.add_0_r by done. done.
  - simpl in Hpts. destruct (eq (page_content ch)) as [err|e] eqn:He; [discriminate|].
    destruct (embed_points eq (S i) pre) as [pts'|] eqn:Hr; [|discriminate].
    injection Hpts as <-. inversion Hdim as [|? ? Hlen Hdim']; subst.
    cbn [app store_chunks_from]. unfold bind at 1, lift. rewrite He.
    unfold bind at 1, upsert. rewrite collection_key_str. unfold bind, lift. rewrite Hc. simpl.
    simpl in Hlen. rewrite (proj2 (Nat.eqb_eq _ _) Hlen).
    set (c1 := {| coll_size := coll_size c; coll_distance := coll_distance c;
                  coll_points := <[i := mk_point i e ch]> (coll_points c) |}).
    change (true && true) with true. cbv iota beta.
    rewrite (IH (S i) _ c1 pts'); [|simpl; apply lookup_insert_eq|done|exact Hdim'].
    replace (S i + length pre)%nat with (i + S (length pre))%nat by lia.
    unfold after_upserts. simpl. rewrite insert_insert_eq, <- app_assoc. done.
Qed.

(** When the embedding service fails on a chunk, the job is requeued
    and the points of the chunks before it, upserted one by one, stay in
    the collection: nothing is rolled back. *)
Theorem embedding_failure_keeps_earlier_points (fe : string -> bool) (fd : Z -> bool)
    (lp : json -> result (list document)) (eq : text -> result (list Z))
    (d fp : string) (docs : list document) (v : list Z) (c : collection)
    (pre : list document) (ch : document) (rest : list document) (pts : list point)
    (e : exn) (st : wstate) :
  fe fp = true -> lp (JStr fp) = inr docs -> eq (txt "test") = inr v ->
  w_qdrant st !! d = Some c ->
  split_documents worker_splitter docs = pre ++ ch :: rest ->
  embed_points eq 0 pre = Some pts ->
  Forall (fun p => length (point_vector p) = coll_size c) pts ->
  eq (page_content ch) = inl e -> is_file_not_found e = false ->
  process_pdf fe fd lp eq (job_message d fp) st = (inr (Nack true), after_upserts st d c pts).
Proof.
  intros Hfe Hlp Htest Hc Hsplit Hpts Hdim He Hfnf.
  unfold process_pdf, try_except. rewrite process_job_try, Hfe, Hlp, Htest.
  unfold bind at 1. rewrite (ensure_existing st d (length v) c Hc).
  unfold bind, store_chunks. rewrite Hsplit, (store_chunks_from_app eq d 0 pre _ st c pts Hc Hpts Hdim).
  cbn [store_chunks_from]. unfold bind at 1, lift. rewrite He. cbv beta iota.
  rewrite Hfnf. done.
Qed.

Lemma embedding_failure_keeps_earlier_points_witness :
  process_pdf (fun _ => true) (fun _ => true) (fun _ => inr [page1]) embed_fail_on_b
    (job_message "d" "/tmp/uploads/d.pdf") store_with_d
  = (inr (Nack true),
     after_upserts store_with_d "d" {| coll_size := 2; coll_distance := Cosine; coll_points := ∅ |}
       [mk_point 0 [1; 2] {| page_content := par "a"%char 700; doc_metadata := doc_metadata page1 |}]).
Proof.
  apply (embedding_failure_keeps_earlier_points _ _ _ _ _ _ [page1] [1; 2] _
           [{| page_content := par "a"%char 700; doc_metadata := doc_metadata page1 |}]
           {| page_content := par "b"%char 700; doc_metadata := doc_metadata page1 |}
           [{| page_content := par "c"%char 700; doc_metadata := doc_metadata page1 |}]
           _ (ServiceError "429 Resource has been exhausted"%string)).
  - reflexivity.
  - reflexivity.
  - reflexivity.
  - reflexivity.
  - vm_compute. reflexivity.
  - reflexivity.
  - repeat constructor.
  - reflexivity.
  - reflexivity.
Defined.


(** ** The collection a job names *)




